(** * Quantum Lock protection subsystem: a shallow embedding and its properties

    The development follows [QUANTUM_LOCK_SYSTEM/CORE_LOCK]:
    - [fernet_manager.py]  (class [FernetManager]),
    - [quantum_lock.py]    (class [QuantumLock]),
    - [license_check.py]   (class [LicenseChecker]),
    - [self_destruct.py]   (class [SelfDestructSystem]).

    Python objects are records, methods are functions that take the object
    and return the method's outcome together with the object after the call.
    The file system, the wall clock and the entropy source are explicit
    arguments.  The [cryptography] and [hashlib] packages are not part of the
    repository; they enter as interfaces ([FernetLib], [HashLib]). *)

From Stdlib Require Import ZArith List String Ascii Bool Lia DecimalString.
From stdpp Require Import base option list gmap strings.
Import ListNotations.

Local Open Scope string_scope.
Local Open Scope Z_scope.

(** ** The fragment of the Python runtime used by the code *)

Module Py.

(** Exceptions that the modelled code raises or catches. *)
Inductive exn : Type :=
| ValueError (msg : string)
| OverflowError (msg : string)
| UnicodeDecodeError (msg : string)
| RuntimeError (msg : string)
| FileNotFoundError (path : string)
| IsADirectoryError (path : string)
| InvalidToken
| SystemExit (code : Z)
| BeyondLatin1.

(** [BeyondLatin1] is no exception of Python: it marks a text file whose
    content is outside the [str] of this development (code points above
    U+00FF, see [utf8_decode]); no statement concludes it. *)

(** Outcome of a call: a returned value or a raised exception. *)
Inductive result (A : Type) : Type :=
| Ok (a : A)
| Raise (e : exn).
Arguments Ok {A} a.
Arguments Raise {A} e.

Definition bind {A B} (r : result A) (k : A -> result B) : result B :=
  match r with
  | Ok a => k a
  | Raise e => Raise e
  end.

Definition is_ok {A} (r : result A) : bool :=
  match r with Ok _ => true | Raise _ => false end.

(** [Exception] subclasses are what [except Exception] catches; [SystemExit]
    derives from [BaseException] only. *)
Definition is_Exception (e : exn) : bool :=
  match e with
  | SystemExit _ => false
  | _ => true
  end.

(** *** [bytes] and [str]

    [bytes] is a sequence of octets, which is what [string] is.  A [str] is
    modelled by a [string] whose characters are the code points U+0000 to
    U+00FF; the character classes below are those of Unicode on that
    range. *)

Definition bytes := string.

Definition cp (c : ascii) : N := N_of_ascii c.

(** [c.isdigit()]: the ASCII digits and the superscripts U+00B2, U+00B3,
    U+00B9. *)
Definition chr_isdigit (c : ascii) : bool :=
  let n := cp c in
  ((48 <=? n) && (n <=? 57) || (n =? 178) || (n =? 179) || (n =? 185))%N.

(** Characters that [int] accepts as decimal digits, with their value. *)
Definition chr_decimal (c : ascii) : option Z :=
  let n := cp c in
  if ((48 <=? n) && (n <=? 57))%N then Some (Z.of_N n - 48) else None.

(** [c.isspace()]. *)
Definition chr_isspace (c : ascii) : bool :=
  let n := cp c in
  ((9 <=? n) && (n <=? 13) || (28 <=? n) && (n <=? 32)
   || (n =? 133) || (n =? 160))%N.

(** [c.lower()]: A-Z, and U+00C0..U+00DE except the multiplication sign. *)
Definition chr_lower (c : ascii) : ascii :=
  let n := cp c in
  if ((65 <=? n) && (n <=? 90)
      || (192 <=? n) && (n <=? 222) && negb (n =? 215))%N
  then ascii_of_N (n + 32) else c.

Fixpoint str_all (p : ascii -> bool) (s : string) : bool :=
  match s with
  | EmptyString => true
  | String c s' => p c && str_all p s'
  end.

Fixpoint str_map (f : ascii -> ascii) (s : string) : string :=
  match s with
  | EmptyString => EmptyString
  | String c s' => String (f c) (str_map f s')
  end.

(** [s.isdigit()]: false on the empty string. *)
Definition str_isdigit (s : string) : bool :=
  match s with
  | EmptyString => false
  | _ => str_all chr_isdigit s
  end.

Definition str_lower (s : string) : string := str_map chr_lower s.

(** [s.split(sep)] for a one-character separator: never the empty list. *)
Fixpoint str_split (sep : ascii) (s : string) : list string :=
  match s with
  | EmptyString => [EmptyString]
  | String c s' =>
      if Ascii.eqb c sep then EmptyString :: str_split sep s'
      else match str_split sep s' with
           | [] => [String c EmptyString]
           | p :: ps => String c p :: ps
           end
  end.

(** [sep.join(parts)]. *)
Fixpoint str_join (sep : string) (parts : list string) : string :=
  match parts with
  | [] => EmptyString
  | [p] => p
  | p :: rest => p ++ sep ++ str_join sep rest
  end.

Fixpoint str_lstrip (s : string) : string :=
  match s with
  | EmptyString => EmptyString
  | String c s' => if chr_isspace c then str_lstrip s' else s
  end.

Fixpoint str_rstrip (s : string) : string :=
  match s with
  | EmptyString => EmptyString
  | String c s' =>
      match str_rstrip s' with
      | EmptyString => if chr_isspace c then EmptyString else String c EmptyString
      | r => String c r
      end
  end.

(** [s.strip()]. *)
Definition str_strip (s : string) : string := str_rstrip (str_lstrip s).

(** [data.startswith(p)] and [data[n:]]. *)
Definition startswith (p data : string) : bool := String.prefix p data.

Fixpoint str_drop (n : nat) (s : string) : string :=
  match n, s with
  | O, _ => s
  | S n', String _ s' => str_drop n' s'
  | S _, EmptyString => EmptyString
  end.

(** [str(n)] for an integer. *)
Definition str_of_Z (z : Z) : string := NilZero.string_of_int (Z.to_int z).

(** Accumulating decimal reader behind [int]. *)
Fixpoint digits_value (acc : Z) (s : string) : option Z :=
  match s with
  | EmptyString => Some acc
  | String c s' =>
      match chr_decimal c with
      | Some d => digits_value (10 * acc + d) s'
      | None => None
      end
  end.

(** The number of decimal digits that [s] starts with. *)
Fixpoint leading_digits (s : string) : nat :=
  match s with
  | EmptyString => O
  | String c s' =>
      match chr_decimal c with
      | Some _ => S (leading_digits s')
      | None => O
      end
  end.

(** [sys.get_int_max_str_digits()], at its default. *)
Definition MAX_STR_DIGITS : nat := N.to_nat 4300.

(** [int(s)] on the strings the code passes to it, those with [s.isdigit()].
    The digits that [s] starts with are counted first, leading zeros
    included, and more than 4300 of them raise [ValueError]; then a string
    of ASCII digits is read in base ten, and any other one (a superscript
    digit is [isdigit] but no decimal) raises [ValueError]. *)
Definition int_of_str (s : string) : result Z :=
  match s with
  | EmptyString => Raise (ValueError "invalid literal for int() with base 10: ''")
  | _ =>
      if (MAX_STR_DIGITS <? leading_digits s)%nat then
        Raise (ValueError
                 ("Exceeds the limit (4300 digits) for integer string conversion: value has "
                  ++ str_of_Z (Z.of_nat (leading_digits s))
                  ++ " digits; use sys.set_int_max_str_digits() to increase the limit"))
      else
        match digits_value 0 s with
        | Some z => Ok z
        | None =>
            Raise (ValueError ("invalid literal for int() with base 10: '" ++ s ++ "'"))
        end
  end.

(** [parts[-1]]; [IndexError] cannot arise on the non-empty lists of
    [str_split], the default stands for it. *)
Definition list_last (l : list string) : string := List.last l EmptyString.

(** *** [datetime] *)

Record datetime : Type := mkDatetime {
  dt_year : Z; dt_month : Z; dt_day : Z;
  dt_hour : Z; dt_minute : Z; dt_second : Z; dt_microsecond : Z
}.

Definition MINYEAR : Z := 1.
Definition MAXYEAR : Z := 9999.

Definition is_leap (y : Z) : bool :=
  (y mod 4 =? 0) && (negb (y mod 100 =? 0) || (y mod 400 =? 0)).

Definition days_in_month (y m : Z) : Z :=
  if m =? 2 then (if is_leap y then 29 else 28)
  else if (m =? 4) || (m =? 6) || (m =? 9) || (m =? 11) then 30
  else 31.

Definition in_range (lo x hi : Z) : bool := (lo <=? x) && (x <=? hi).

(** The range checks of the [datetime] constructor. *)
Definition datetime_checked (y mo d h mi s : Z) : result datetime :=
  if negb (in_range MINYEAR y MAXYEAR) then
    Raise (ValueError ("year " ++ str_of_Z y ++ " is out of range"))
  else if negb (in_range 1 mo 12) then
    Raise (ValueError "month must be in 1..12")
  else if negb (in_range 1 d (days_in_month y mo)) then
    Raise (ValueError "day is out of range for month")
  else if negb (in_range 0 h 23) then
    Raise (ValueError "hour must be in 0..23")
  else if negb (in_range 0 mi 59) then
    Raise (ValueError "minute must be in 0..59")
  else if negb (in_range 0 s 59) then
    Raise (ValueError "second must be in 0..59")
  else Ok (mkDatetime y mo d h mi s 0).

(** The constructor takes its arguments as C [int]s (64-bit [long], 32-bit
    [int]): an integer that does not fit raises [OverflowError] before any
    field is checked. *)
Definition as_c_int (z : Z) : result Z :=
  if negb (in_range (- 2 ^ 63) z (2 ^ 63 - 1)) then
    Raise (OverflowError "Python int too large to convert to C long")
  else if 2 ^ 31 - 1 <? z then
    Raise (OverflowError "signed integer is greater than maximum")
  else if z <? - 2 ^ 31 then
    Raise (OverflowError "signed integer is less than minimum")
  else Ok z.

(** [datetime(year, month, day, hour, minute, second)]: once the arguments
    are converted, the constructor checks every field and raises
    [ValueError] on the first one out of range. *)
Definition datetime_new (y mo d h mi s : Z) : result datetime :=
  bind (as_c_int y) (fun _ =>
  bind (as_c_int mo) (fun _ =>
  bind (as_c_int d) (fun _ =>
  bind (as_c_int h) (fun _ =>
  bind (as_c_int mi) (fun _ =>
  bind (as_c_int s) (fun _ =>
  datetime_checked y mo d h mi s)))))).

Definition dt_fields (d : datetime) : list Z :=
  [dt_year d; dt_month d; dt_day d; dt_hour d; dt_minute d; dt_second d;
   dt_microsecond d].

(** Tuple comparison, as [datetime.__gt__] does on the seven fields. *)
Fixpoint lex_compare (a b : list Z) : comparison :=
  match a, b with
  | [], [] => Eq
  | [], _ :: _ => Lt
  | _ :: _, [] => Gt
  | x :: a', y :: b' =>
      match x ?= y with
      | Eq => lex_compare a' b'
      | c => c
      end
  end.

(** [a > b]. *)
Definition datetime_gt (a b : datetime) : bool :=
  match lex_compare (dt_fields a) (dt_fields b) with
  | Gt => true
  | _ => false
  end.

End Py.
Import Py.

(** ** The file system, as far as the code looks at it *)

Module FS.

Inductive fnode : Type :=
| Dir
| File (data : bytes).

(** Paths are the strings handed to [open] and [os.path.exists]. *)
Abbreviation filesystem := (gmap string fnode).

(** [os.path.exists(path)] / [Path.exists()]. *)
Definition path_exists (fs : filesystem) (path : string) : bool :=
  match fs !! path with
  | Some _ => true
  | None => false
  end.

(** [open(path, "rb").read()]. *)
Definition read_bytes (fs : filesystem) (path : string) : result bytes :=
  match fs !! path with
  | None => Raise (FileNotFoundError path)
  | Some Dir => Raise (IsADirectoryError path)
  | Some (File data) => Ok data
  end.

Definition CR : ascii := "013"%char.
Definition LF : ascii := "010"%char.

(** Text mode translates "\r\n" and a lone "\r" to "\n". *)
Fixpoint universal_newlines (s : string) : string :=
  match s with
  | EmptyString => EmptyString
  | String c s' =>
      if Ascii.eqb c CR then
        match s' with
        | String c' s'' =>
            if Ascii.eqb c' LF then String LF (universal_newlines s'')
            else String LF (universal_newlines s')
        | EmptyString => String LF EmptyString
        end
      else String c (universal_newlines s')
  end.

(** Two lower-case hexadecimal digits, as [%02x] prints an octet. *)
Definition hex_digit (n : N) : ascii :=
  if (n <? 10)%N then ascii_of_N (48 + n) else ascii_of_N (87 + n).

Definition hex2 (b : ascii) : string :=
  String (hex_digit (cp b / 16)) (String (hex_digit (cp b mod 16)) EmptyString).

(** The [UnicodeDecodeError] of the codec for one octet. *)
Definition cannot_decode (b : ascii) (pos : nat) (reason : string) : exn :=
  UnicodeDecodeError
    ("'utf-8' codec can't decode byte 0x" ++ hex2 b ++ " in position "
     ++ str_of_Z (Z.of_nat pos) ++ ": " ++ reason).

(** The decoding of text mode, UTF-8, from the octet at position [pos].  An
    octet below 0x80 is its own code point; the lead octets 0xC2 and 0xC3
    with a continuation octet give the code points U+0080 to U+00FF; a
    continuation octet without lead, the lead octets 0xC0, 0xC1 and those
    above 0xF4, and a lead 0xC2 or 0xC3 without continuation raise
    [UnicodeDecodeError], wherever in the file they are.  A lead octet from
    0xC4 to 0xF4 starts a character above U+00FF, or an invalid sequence:
    such a file is outside the alphabet of this development, which
    [BeyondLatin1] records; it is no exception of Python. *)
Fixpoint utf8_decode_from (pos : nat) (data : bytes) : result string :=
  match data with
  | EmptyString => Ok EmptyString
  | String b rest =>
      let n := cp b in
      if (n <? 128)%N then
        bind (utf8_decode_from (S pos) rest) (fun text => Ok (String b text))
      else if ((n =? 194) || (n =? 195))%N then
        match rest with
        | String b2 rest2 =>
            if ((128 <=? cp b2) && (cp b2 <=? 191))%N then
              bind (utf8_decode_from (S (S pos)) rest2) (fun text =>
              Ok (String (ascii_of_N ((n - 192) * 64 + (cp b2 - 128))) text))
            else Raise (cannot_decode b pos "invalid continuation byte")
        | EmptyString => Raise (cannot_decode b pos "unexpected end of data")
        end
      else if ((196 <=? n) && (n <=? 244))%N then Raise BeyondLatin1
      else Raise (cannot_decode b pos "invalid start byte")
  end.

Definition utf8_decode (data : bytes) : result string := utf8_decode_from 0 data.

(** [open(path, "r").read()]: the whole file is decoded, then the line ends
    are translated. *)
Definition read_text (fs : filesystem) (path : string) : result string :=
  bind (read_bytes fs path) (fun data =>
  bind (utf8_decode data) (fun text => Ok (universal_newlines text))).

End FS.
Import FS.

(** ** [license_check.py] *)

Module License.

(** The dataclass [LicenseInfo]. *)
Record LicenseInfo : Type := mkLicenseInfo {
  is_valid : bool;
  license_type : string;
  model : string;
  expires : option datetime;
  features : list string;
  max_requests : Z;
  hardware_locked : bool;
  error : option string
}.

(** [LicenseInfo(is_valid=False, error=msg)]: the other fields keep the
    dataclass defaults. *)
Definition LicenseInfo_failed (msg : string) : LicenseInfo :=
  {| is_valid := false; license_type := "unknown"; model := "unknown";
     expires := None; features := []; max_requests := 0;
     hardware_locked := false; error := Some msg |}.

Definition TRIAL : string := "trial".
Definition STANDARD : string := "standard".
Definition ENTERPRISE : string := "enterprise".

Definition FEATURE_VOICE : string := "voice".
Definition FEATURE_API : string := "api".
Definition FEATURE_BATCH : string := "batch".
Definition FEATURE_UNLIMITED : string := "unlimited".

(** The object state of a [LicenseChecker] ([_last_check] is never read or
    written after [__init__]). *)
Record LicenseChecker : Type := mkLicenseChecker {
  license_path : option string;
  _license_info : option LicenseInfo;
  _request_count : Z
}.

(** [LicenseChecker(license_path)]: an empty path counts as no path. *)
Definition LicenseChecker_init (path : option string) : LicenseChecker :=
  {| license_path :=
       match path with
       | Some EmptyString => None
       | p => p
       end;
     _license_info := None;
     _request_count := 0 |}.

Definition set_license_info (self : LicenseChecker) (info : LicenseInfo)
  : LicenseChecker :=
  {| license_path := license_path self;
     _license_info := Some info;
     _request_count := _request_count self |}.

Definition _get_features (ty : string) : list string :=
  let base_features := [FEATURE_API] in
  if String.eqb ty TRIAL then base_features
  else if String.eqb ty STANDARD then
    base_features ++ [FEATURE_VOICE; FEATURE_BATCH]
  else if String.eqb ty ENTERPRISE then
    base_features ++ [FEATURE_VOICE; FEATURE_BATCH; FEATURE_UNLIMITED]
  else base_features.

(** The dictionary literal of [_get_request_limit]. *)
Definition limits : gmap string Z :=
  <[ENTERPRISE := -1]> (<[STANDARD := 100000]> (<[TRIAL := 1000]> ∅)).

Definition _get_request_limit (ty : string) : Z :=
  default 100 (limits !! ty).

(** [str(e)] for the exceptions that reach the handler of
    [check_license_key]. *)
Definition str_exn (e : exn) : string :=
  match e with
  | ValueError msg => msg
  | OverflowError msg => msg
  | UnicodeDecodeError msg => msg
  | BeyondLatin1 => ""
  | RuntimeError msg => msg
  | FileNotFoundError p => "[Errno 2] No such file or directory: '" ++ p ++ "'"
  | IsADirectoryError p => "[Errno 21] Is a directory: '" ++ p ++ "'"
  | InvalidToken => ""
  | SystemExit c => str_of_Z c
  end.

(** [parts[3]]. *)
Definition part3 (parts : list string) : string := nth 3%nat parts EmptyString.

(** [int(parts[-1]) if parts[-1].isdigit() else 2025]. *)
Definition parse_year (parts : list string) : result Z :=
  if str_isdigit (list_last parts) then int_of_str (list_last parts)
  else Ok 2025.

(** The [try] block of [check_license_key]; [now] is the value of
    [datetime.now()]. *)
Definition check_license_key_try (self : LicenseChecker) (license_key : string)
    (now : datetime) : result (LicenseInfo * LicenseChecker) :=
  let parts := str_split "-" license_key in
  if (length parts <? 3)%nat then
    Ok (LicenseInfo_failed "Invalid license key format", self)
  else
    let model :=
      if (3 <=? length parts)%nat then str_join "-" (firstn 3 parts)
      else hd EmptyString parts in
    let license_type :=
      if (3 <? length parts)%nat then str_lower (part3 parts) else "trial" in
    bind (parse_year parts) (fun year =>
    bind (datetime_new year 12 31 23 59 59) (fun expires =>
    if datetime_gt now expires then
      Ok ({| is_valid := false; license_type := license_type; model := model;
             expires := Some expires; features := []; max_requests := 0;
             hardware_locked := false;
             error := Some "License has expired" |}, self)
    else
      let info :=
        {| is_valid := true; license_type := license_type; model := model;
           expires := Some expires;
           features := _get_features license_type;
           max_requests := _get_request_limit license_type;
           hardware_locked := false; error := None |} in
      Ok (info, set_license_info self info))).

(** [check_license_key]: the [except Exception] handler turns whatever the
    block raises ([ValueError] from [int] or [datetime]) into a failed
    [LicenseInfo]; the object is as it was, the block assigns
    [_license_info] last. *)
Definition check_license_key (self : LicenseChecker) (license_key : string)
    (now : datetime) : LicenseInfo * LicenseChecker :=
  match check_license_key_try self license_key now with
  | Ok r => r
  | Raise e =>
      (LicenseInfo_failed ("License validation error: " ++ str_exn e), self)
  end.

(** [check_license_file]: [open] is outside any handler, its exception
    leaves the method. *)
Definition check_license_file (self : LicenseChecker) (fs : filesystem)
    (now : datetime) : result (LicenseInfo * LicenseChecker) :=
  match license_path self with
  | None => Ok (LicenseInfo_failed "License file not found", self)
  | Some p =>
      if negb (path_exists fs p) then
        Ok (LicenseInfo_failed "License file not found", self)
      else
        bind (read_text fs p) (fun text =>
        let content := str_strip text in
        let lines := str_split LF content in
        if (length lines <? 1)%nat then
          Ok (LicenseInfo_failed "Empty license file", self)
        else
          let license_key := str_strip (nth 0%nat lines EmptyString) in
          Ok (check_license_key self license_key now))
  end.

(** [has_feature]. *)
Definition has_feature (self : LicenseChecker) (feature : string) : bool :=
  match _license_info self with
  | None => false
  | Some info => existsb (String.eqb feature) (features info)
  end.

(** [can_make_request]; a [datetime] is always truthy, so
    [expires and now > expires] is [now > expires] when [expires] is set. *)
Definition can_make_request (self : LicenseChecker) (now : datetime)
  : bool * string :=
  match _license_info self with
  | None => (false, "No valid license")
  | Some info =>
      if negb (is_valid info) then (false, "No valid license")
      else if match expires info with
              | Some e => datetime_gt now e
              | None => false
              end
      then (false, "License expired")
      else if (0 <? max_requests info) && (max_requests info <=? _request_count self)
      then (false, "Request limit exceeded")
      else (true, "OK")
  end.

(** [record_request]. *)
Definition record_request (self : LicenseChecker) : LicenseChecker :=
  {| license_path := license_path self;
     _license_info := _license_info self;
     _request_count := _request_count self + 1 |}.

(** [reset_usage]. *)
Definition reset_usage (self : LicenseChecker) : LicenseChecker :=
  {| license_path := license_path self;
     _license_info := _license_info self;
     _request_count := 0 |}.

(** The module-level [verify_license(license_key)]. *)
Definition verify_license (license_key : string) (now : datetime) : bool :=
  is_valid (fst (check_license_key (LicenseChecker_init None) license_key now)).

(** *** Vocabulary of the statements about the checker *)

(** The end of year [Y] as the tuple [datetime] compares on, also for a
    year no [datetime] exists for. *)
Definition end_of_year (Y : Z) : list Z := [Y; 12; 31; 23; 59; 59; 0].

(** [now] lies strictly after the last second of year [Y]. *)
Definition after_end_of_year (now : datetime) (Y : Z) : bool :=
  match lex_compare (dt_fields now) (end_of_year Y) with
  | Gt => true
  | _ => false
  end.

(** The year [check_license_key] reads off a key it does not reject for
    its shape: that of [parse_year] on the segments. *)
Definition parsed_expiry_year (license_key : string) : option Z :=
  let parts := str_split "-" license_key in
  if (length parts <? 3)%nat then None
  else match parse_year parts with
       | Ok y => Some y
       | Raise _ => None
       end.

(** [n] calls of [record_request]. *)
Definition record_requests (n : nat) (self : LicenseChecker) : LicenseChecker :=
  Nat.iter n record_request self.

(** The stored license has not run out at [now]. *)
Definition unexpired (info : LicenseInfo) (now : datetime) : Prop :=
  match expires info with
  | Some e => datetime_gt now e = false
  | None => True
  end.

Definition noon (y mo d : Z) : datetime := mkDatetime y mo d 12 0 0 0.

(** *** Sample inputs *)

(** A license of quota 3 and a fresh checker that holds it. *)
Definition quota3_info : LicenseInfo :=
  {| is_valid := true; license_type := "custom"; model := "REGIS-7B-C";
     expires := Some (mkDatetime 2025 12 31 23 59 59 0);
     features := ["api"]; max_requests := 3;
     hardware_locked := false; error := None |}.

Definition quota3_checker : LicenseChecker :=
  {| license_path := None; _license_info := Some quota3_info;
     _request_count := 0 |}.

(** A checker bound to the file "license.key", and a text of white space. *)
Definition file_checker : LicenseChecker :=
  LicenseChecker_init (Some "license.key").

Definition blank_text : string := String " " (String LF (String LF EmptyString)).


End License.

(** ** The [cryptography.fernet] interface *)

Module Crypto.

(** What the code uses of [cryptography.fernet].  A [fernet] is a
    constructed [Fernet] object; [Fernet_new key] is [Fernet(key)], [None]
    when the constructor raises [ValueError] on a malformed key;
    [encrypt_from_parts f data current_time iv] is the token that
    [f.encrypt(data)] builds from the clock and 16 random octets;
    [decrypt_data f token] is the time stamp and the plaintext of a token
    that [f] authenticates, [None] when [f.decrypt] raises [InvalidToken]. *)
Class FernetLib : Type := {
  fernet : Type;
  Fernet_new : bytes -> option fernet;
  encrypt_from_parts : fernet -> bytes -> Z -> bytes -> bytes;
  decrypt_data : fernet -> bytes -> option (Z * bytes)
}.

(** A time stamp is packed into 8 octets and an initialisation vector is
    one AES block. *)
Definition ts_ok (t : Z) : Prop := 0 <= t < 2 ^ 64.
Definition iv_ok (iv : bytes) : Prop := String.length iv = 16%nat.

(** The contract of the cipher: a token opens under the key that made
    it.  What another key makes of a token is left open: [Fernet] rejects
    it when the signature fails, and may open it to other octets when the
    two keys share their signing half. *)
Class FernetLaws (L : FernetLib) : Prop := {
  decrypt_encrypt :
    forall (f : fernet) data t iv, ts_ok t -> iv_ok iv ->
      decrypt_data f (encrypt_from_parts f data t iv) = Some (t, data)
}.

(** The readings of [time.time()] and [os.urandom(16)] that one call to
    [encrypt] consumes. *)
Record entropy : Type := mkEntropy {
  current_time : Z;
  iv : bytes
}.

Definition entropy_ok (r : entropy) : Prop :=
  ts_ok (current_time r) /\ iv_ok (iv r).

Section Fernet.
Context {L : FernetLib}.

(** [f.encrypt(data)]. *)
Definition fernet_encrypt (f : fernet) (r : entropy) (data : bytes) : bytes :=
  encrypt_from_parts f data (current_time r) (iv r).

(** [f.decrypt(token)], without [ttl]. *)
Definition fernet_decrypt (f : fernet) (token : bytes) : result bytes :=
  match decrypt_data f token with
  | Some (_, data) => Ok data
  | None => Raise InvalidToken
  end.

(** [Fernet(key)] as a call that may raise. *)
Definition Fernet (key : bytes) : result fernet :=
  match Fernet_new key with
  | Some f => Ok f
  | None => Raise (ValueError "Fernet key must be 32 url-safe base64-encoded bytes.")
  end.

(** [[Fernet(k) for k in keys]]. *)
Fixpoint Fernet_all (keys : list bytes) : result (list fernet) :=
  match keys with
  | [] => Ok []
  | k :: ks =>
      bind (Fernet k) (fun f =>
      bind (Fernet_all ks) (fun fs => Ok (f :: fs)))
  end.

(** [MultiFernet(fernets)]. *)
Definition MultiFernet (fernets : list fernet) : result (list fernet) :=
  match fernets with
  | [] => Raise (ValueError "MultiFernet requires at least one Fernet instance")
  | _ => Ok fernets
  end.

(** The loop of [MultiFernet.rotate] and [MultiFernet.decrypt]: the first
    member that authenticates the token. *)
Fixpoint multi_decrypt_data (fernets : list fernet) (token : bytes)
  : option (Z * bytes) :=
  match fernets with
  | [] => None
  | f :: rest =>
      match decrypt_data f token with
      | Some r => Some r
      | None => multi_decrypt_data rest token
      end
  end.

(** [MultiFernet.rotate(msg)]: the plaintext is sealed again under the first
    member, with the token's own time stamp and a fresh vector. *)
Definition multi_rotate (fernets : list fernet) (token : bytes) (new_iv : bytes)
  : result bytes :=
  match multi_decrypt_data fernets token with
  | None => Raise InvalidToken
  | Some (t, data) =>
      match fernets with
      | f0 :: _ => Ok (encrypt_from_parts f0 data t new_iv)
      | [] => Raise InvalidToken
      end
  end.

End Fernet.

(** A small instance of the interface, to run the definitions on.  A key is
    two octets; a token is the key, the time stamp in 8 octets, the vector
    and the plaintext. *)
Module Toy.

Fixpoint le_encode (n : nat) (t : Z) : string :=
  match n with
  | O => EmptyString
  | S n' => String (ascii_of_N (Z.to_N (t mod 256))) (le_encode n' (t / 256))
  end.

Fixpoint le_decode (n : nat) (s : string) : Z :=
  match n, s with
  | S n', String c s' => Z.of_N (N_of_ascii c) + 256 * le_decode n' s'
  | _, _ => 0
  end.

Definition toy_key : Type := ascii * ascii.

Definition toy_new (key : bytes) : option toy_key :=
  match key with
  | String a (String b EmptyString) => Some (a, b)
  | _ => None
  end.

Definition toy_encrypt (f : toy_key) (data : bytes) (t : Z) (iv : bytes) : bytes :=
  String (fst f) (String (snd f) (le_encode 8 t ++ iv ++ data)).

Definition toy_decrypt (f : toy_key) (token : bytes) : option (Z * bytes) :=
  match token with
  | String a (String b body) =>
      if Ascii.eqb a (fst f) && Ascii.eqb b (snd f)
         && (24 <=? String.length body)%nat
      then Some (le_decode 8 body, str_drop 24 body)
      else None
  | _ => None
  end.

Definition toy : FernetLib :=
  {| fernet := toy_key;
     Fernet_new := toy_new;
     encrypt_from_parts := toy_encrypt;
     decrypt_data := toy_decrypt |}.


(** Sample keys, entropy and plaintext. *)
Definition new_key : bytes := "nk".
Definition old_key : bytes := "ok".
Definition sample_entropy : entropy :=
  {| current_time := 1700000000; iv := "0123456789abcdef" |}.
Definition sample_iv : bytes := "fedcba9876543210".
Definition sample_data : bytes := "model weights".

End Toy.

End Crypto.
Import Crypto.

(** ** [fernet_manager.py] *)

Module Manager.
Section Manager.
Context {L : FernetLib}.

(** The three attributes of a [FernetManager]. *)
Record FernetManager : Type := mkFernetManager {
  _fernet : option fernet;
  _multi_fernet : option (list fernet);
  _key : option bytes
}.

(** [FernetManager()]. *)
Definition FernetManager_init : FernetManager :=
  {| _fernet := None; _multi_fernet := None; _key := None |}.

(** [load_key]: [_key] is assigned before [Fernet(key)] is tried. *)
Definition load_key (self : FernetManager) (key : bytes)
  : result unit * FernetManager :=
  let self1 := {| _fernet := _fernet self;
                  _multi_fernet := _multi_fernet self;
                  _key := Some key |} in
  match Fernet key with
  | Raise e => (Raise e, self1)
  | Ok f => (Ok tt, {| _fernet := Some f;
                       _multi_fernet := _multi_fernet self;
                       _key := Some key |})
  end.

(** [generate_key], on the key that [Fernet.generate_key()] drew. *)
Definition generate_key (self : FernetManager) (fresh : bytes)
  : result bytes * FernetManager :=
  let '(r, self') := load_key self fresh in
  (bind r (fun _ => Ok fresh), self').

(** [encrypt]. *)
Definition encrypt (self : FernetManager) (r : entropy) (data : bytes)
  : result bytes :=
  match _fernet self with
  | None => Raise (ValueError "No key loaded")
  | Some f => Ok (fernet_encrypt f r data)
  end.

(** [decrypt]. *)
Definition decrypt (self : FernetManager) (encrypted_data : bytes)
  : result bytes :=
  match _fernet self with
  | None => Raise (ValueError "No key loaded")
  | Some f => fernet_decrypt f encrypted_data
  end.

(** [setup_key_rotation]: the list of [Fernet] objects and the
    [MultiFernet] are built before the first attribute is assigned;
    [Fernet(new_key)] is then built a second time for [_fernet]. *)
Definition setup_key_rotation (self : FernetManager) (new_key : bytes)
    (old_keys : list bytes) : result unit * FernetManager :=
  match
    bind (Fernet new_key) (fun fnew =>
    bind (Fernet_all old_keys) (fun folds =>
    MultiFernet (fnew :: folds)))
  with
  | Raise e => (Raise e, self)
  | Ok multi =>
      let self1 := {| _fernet := _fernet self;
                      _multi_fernet := Some multi;
                      _key := Some new_key |} in
      match Fernet new_key with
      | Raise e => (Raise e, self1)
      | Ok f => (Ok tt, {| _fernet := Some f;
                           _multi_fernet := Some multi;
                           _key := Some new_key |})
      end
  end.

(** [rotate_encrypt]; [new_iv] is what [os.urandom(16)] returns inside
    [MultiFernet.rotate]. *)
Definition rotate_encrypt (self : FernetManager) (new_iv : bytes)
    (encrypted_data : bytes) : result bytes :=
  match _multi_fernet self with
  | None => Raise (ValueError "Key rotation not configured")
  | Some multi => multi_rotate multi encrypted_data new_iv
  end.

(** [clear]. *)
Definition clear (self : FernetManager) : FernetManager :=
  {| _fernet := None; _multi_fernet := None; _key := None |}.

(** The calls a client can make on a manager that do not hand it a key. *)
Inductive op : Type :=
| OpEncrypt (r : entropy) (data : bytes)
| OpDecrypt (token : bytes)
| OpRotate (new_iv : bytes) (token : bytes)
| OpClear.

(** One call: its outcome and the manager after it. *)
Definition run_op (self : FernetManager) (o : op)
  : result (option bytes) * FernetManager :=
  match o with
  | OpEncrypt r data => (bind (encrypt self r data) (fun c => Ok (Some c)), self)
  | OpDecrypt token => (bind (decrypt self token) (fun c => Ok (Some c)), self)
  | OpRotate new_iv token =>
      (bind (rotate_encrypt self new_iv token) (fun c => Ok (Some c)), self)
  | OpClear => (Ok None, clear self)
  end.

(** A sequence of calls, each outcome recorded. *)
Fixpoint run_ops (self : FernetManager) (os : list op)
  : list (result (option bytes)) * FernetManager :=
  match os with
  | [] => ([], self)
  | o :: rest =>
      let '(r, self1) := run_op self o in
      let '(rs, self2) := run_ops self1 rest in
      (r :: rs, self2)
  end.

(** The error a key-less manager answers a crypto call with. *)
Definition not_initialized (o : op) : result (option bytes) :=
  match o with
  | OpEncrypt _ _ | OpDecrypt _ => Raise (ValueError "No key loaded")
  | OpRotate _ _ => Raise (ValueError "Key rotation not configured")
  | OpClear => Ok None
  end.

End Manager.
End Manager.

(** ** [quantum_lock.py] *)

Module Lock.
Section Lock.
Context {L : FernetLib}.

Definition LOCK_PREFIX : bytes := "QUANTUM_LOCK_V1:".

(** The attributes of a [QuantumLock]; [_license_data] is a dictionary
    with string keys and string values. *)
Record QuantumLock : Type := mkQuantumLock {
  lock_path : string;
  model_name : string;
  _fernet : option fernet;
  _is_verified : bool;
  _license_data : gmap string string
}.

(** [_verify_lock_file]. *)
Definition _verify_lock_file (fs : filesystem) (path : string) : result unit :=
  if negb (path_exists fs path) then Raise (FileNotFoundError path)
  else
    bind (read_bytes fs path) (fun data =>
    if negb (startswith LOCK_PREFIX data) then
      Raise (ValueError "Invalid lock file format")
    else Ok tt).

(** [QuantumLock(lock_path, model_name)]. *)
Definition QuantumLock_init (fs : filesystem) (path name : string)
  : result QuantumLock :=
  bind (_verify_lock_file fs path) (fun _ =>
  Ok {| lock_path := path; model_name := name; _fernet := None;
        _is_verified := false; _license_data := ∅ |}).

(** [_parse_license]. *)
Definition _parse_license (license_key : string) : gmap string string :=
  let parts := str_split "-" license_key in
  <["raw" := license_key]>
  (<["year" := if (2 <? length parts)%nat then nth 2%nat parts EmptyString else "unknown"]>
  (<["type" := if (1 <? length parts)%nat then nth 1%nat parts EmptyString else "unknown"]>
  (<["model" := if (0 <? length parts)%nat then nth 0%nat parts EmptyString else "unknown"]>
   ∅))).

(** The [except Exception] handler of [verify_license]. *)
Definition verify_failed (self : QuantumLock) : QuantumLock :=
  {| lock_path := lock_path self; model_name := model_name self;
     _fernet := None; _is_verified := false;
     _license_data := _license_data self |}.

(** [verify_license]: the lock file is read again on every call. *)
Definition verify_license (self : QuantumLock) (fs : filesystem)
    (license_key : string) : bool * QuantumLock :=
  match read_bytes fs (lock_path self) with
  | Raise _ => (false, verify_failed self)
  | Ok lock_data =>
      if negb (startswith LOCK_PREFIX lock_data) then (false, self)
      else
        let stored_key := str_drop (String.length LOCK_PREFIX) lock_data in
        match Fernet stored_key with
        | Raise _ => (false, verify_failed self)
        | Ok f =>
            (true, {| lock_path := lock_path self;
                      model_name := model_name self;
                      _fernet := Some f;
                      _is_verified := true;
                      _license_data := _parse_license license_key |})
        end
  end.

(** [close]. *)
Definition close (self : QuantumLock) : QuantumLock :=
  {| lock_path := lock_path self; model_name := model_name self;
     _fernet := None; _is_verified := false; _license_data := ∅ |}.

(** The embedded key of the lock file at [path] loads: the file can be
    read, starts with the prefix, and [Fernet] accepts what follows. *)
Definition lock_key_loads (fs : filesystem) (path : string) : bool :=
  match read_bytes fs path with
  | Raise _ => false
  | Ok lock_data =>
      startswith LOCK_PREFIX lock_data
      && match Fernet_new (str_drop (String.length LOCK_PREFIX) lock_data) with
         | Some _ => true
         | None => false
         end
  end.

End Lock.

(** *** Sample lock file, for the keys of the sample [Fernet] instance *)

Definition fs_lock : filesystem :=
  {[ "lock.bin" := File (LOCK_PREFIX ++ Toy.new_key) ]}.

Definition sample_lock : QuantumLock (L := Toy.toy) :=
  {| lock_path := "lock.bin"; model_name := "test_model"; _fernet := None;
     _is_verified := false; _license_data := ∅ |}.

End Lock.

(** ** The [hashlib] interface *)

Module Hash.

(** [hashlib.sha256()], [update] and [hexdigest]. *)
Class HashLib : Type := {
  sha_state : Type;
  sha256_new : sha_state;
  sha256_update : sha_state -> bytes -> sha_state;
  sha256_hexdigest : sha_state -> string
}.

(** An instance to run the definitions on: the digest is the content
    itself. *)
Definition toy_hash : HashLib :=
  {| sha_state := string;
     sha256_new := EmptyString;
     sha256_update := fun st chunk => (st ++ chunk)%string;
     sha256_hexdigest := fun st => st |}.

End Hash.
Import Hash.

(** ** [self_destruct.py] *)

Module SelfDestruct.
Section SelfDestruct.
Context {H : HashLib}.

Definition SEVERITY_WARNING : string := "warning".
Definition SEVERITY_CRITICAL : string := "critical".
Definition SEVERITY_FATAL : string := "fatal".

(** The dataclass [TamperEvent]; [timestamp] is the reading of
    [time.time()], of which only the identity matters here. *)
Record TamperEvent : Type := mkTamperEvent {
  timestamp : Z;
  event_type : string;
  details : string;
  severity : string;
  file_path : option string
}.

(** A registered callback returns, or raises an [Exception] that
    [_record_tamper] swallows ([false]). *)
Definition callback : Type := TamperEvent -> bool.

(** A dictionary from path to digest, in insertion order. *)
Definition hash_dict : Type := list (string * string).

(** [d[k] = v]: an existing key keeps its place. *)
Fixpoint dict_set (k v : string) (d : hash_dict) : hash_dict :=
  match d with
  | [] => [(k, v)]
  | (k', v') :: d' =>
      if String.eqb k k' then (k, v) :: d' else (k', v') :: dict_set k v d'
  end.

Record SelfDestructSystem : Type := mkSelfDestructSystem {
  protected_paths : list string;
  _integrity_hashes : hash_dict;
  _tamper_events : list TamperEvent;
  _callbacks : list callback;
  _armed : bool;
  _triggered : bool
}.

(** [SelfDestructSystem(protected_paths)]. *)
Definition SelfDestructSystem_init (paths : list string) : SelfDestructSystem :=
  {| protected_paths := paths; _integrity_hashes := []; _tamper_events := [];
     _callbacks := []; _armed := false; _triggered := false |}.

(** The successive results of [f.read(size)] up to the first empty one. *)
Fixpoint read_chunks (fuel : nat) (size : nat) (data : bytes) : list bytes :=
  match fuel with
  | O => []
  | S fuel' =>
      match data with
      | EmptyString => []
      | _ => substring 0 size data :: read_chunks fuel' size (str_drop size data)
      end
  end.

Definition CHUNK_SIZE : nat := N.to_nat 8192.

(** [_calculate_hash]: the file goes through [update] in chunks of 8192. *)
Definition _calculate_hash (fs : filesystem) (path : string) : result string :=
  bind (read_bytes fs path) (fun data =>
  Ok (sha256_hexdigest
        (fold_left sha256_update
           (read_chunks (String.length data) CHUNK_SIZE data) sha256_new))).

Definition set_hashes (self : SelfDestructSystem) (d : hash_dict)
  : SelfDestructSystem :=
  {| protected_paths := protected_paths self; _integrity_hashes := d;
     _tamper_events := _tamper_events self; _callbacks := _callbacks self;
     _armed := _armed self; _triggered := _triggered self |}.

Definition set_armed (self : SelfDestructSystem) (b : bool)
  : SelfDestructSystem :=
  {| protected_paths := protected_paths self;
     _integrity_hashes := _integrity_hashes self;
     _tamper_events := _tamper_events self; _callbacks := _callbacks self;
     _armed := b; _triggered := _triggered self |}.

(** The loop of [arm]: a path that exists but cannot be read raises out of
    the loop, with the digests stored so far. *)
Fixpoint arm_loop (fs : filesystem) (paths : list string) (d : hash_dict)
  : result unit * hash_dict :=
  match paths with
  | [] => (Ok tt, d)
  | path :: rest =>
      if path_exists fs path then
        match _calculate_hash fs path with
        | Raise e => (Raise e, d)
        | Ok h => arm_loop fs rest (dict_set path h d)
        end
      else arm_loop fs rest d
  end.

(** [arm]. *)
Definition arm (self : SelfDestructSystem) (fs : filesystem)
  : result unit * SelfDestructSystem :=
  match arm_loop fs (protected_paths self) (_integrity_hashes self) with
  | (Raise e, d) => (Raise e, set_hashes self d)
  | (Ok _, d) => (Ok tt, set_armed (set_hashes self d) true)
  end.

(** [disarm]. *)
Definition disarm (self : SelfDestructSystem) : SelfDestructSystem :=
  set_armed self false.

(** [trigger]: [sys.exit(1)] raises [SystemExit]. *)
Definition trigger (self : SelfDestructSystem)
  : result unit * SelfDestructSystem :=
  if _triggered self then (Ok tt, self)
  else
    (Raise (SystemExit 1),
     {| protected_paths := protected_paths self; _integrity_hashes := [];
        _tamper_events := _tamper_events self; _callbacks := _callbacks self;
        _armed := _armed self; _triggered := true |}).

(** [_record_tamper]; [ts] is the reading of [time.time()]. *)
Definition _record_tamper (self : SelfDestructSystem) (ts : Z)
    (ty det sev : string) (path : option string)
  : result unit * SelfDestructSystem :=
  let event := {| timestamp := ts; event_type := ty; details := det;
                  severity := sev; file_path := path |} in
  let self1 :=
    {| protected_paths := protected_paths self;
       _integrity_hashes := _integrity_hashes self;
       _tamper_events := _tamper_events self ++ [event];
       _callbacks := _callbacks self;
       _armed := _armed self; _triggered := _triggered self |} in
  let notified := map (fun cb => cb event) (_callbacks self1) in
  if String.eqb sev SEVERITY_FATAL then trigger self1 else (Ok tt, self1).

(** The loop of [check_integrity] over [_integrity_hashes.items()]. *)
Fixpoint check_loop (self : SelfDestructSystem) (fs : filesystem) (ts : Z)
    (items : hash_dict) : result bool * SelfDestructSystem :=
  match items with
  | [] => (Ok true, self)
  | (path, expected_hash) :: rest =>
      if negb (path_exists fs path) then
        let '(r, self') :=
          _record_tamper self ts "file_missing"
            ("Protected file missing: " ++ path) SEVERITY_CRITICAL (Some path) in
        (bind r (fun _ => Ok false), self')
      else
        match _calculate_hash fs path with
        | Raise e => (Raise e, self)
        | Ok current_hash =>
            if negb (String.eqb current_hash expected_hash) then
              let '(r, self') :=
                _record_tamper self ts "file_modified"
                  ("Protected file modified: " ++ path) SEVERITY_CRITICAL
                  (Some path) in
              (bind r (fun _ => Ok false), self')
            else check_loop self fs ts rest
        end
  end.

(** [check_integrity]. *)
Definition check_integrity (self : SelfDestructSystem) (fs : filesystem)
    (ts : Z) : result bool * SelfDestructSystem :=
  if negb (_armed self) then (Ok true, self)
  else check_loop self fs ts (_integrity_hashes self).

(** [get_events]. *)
Definition get_events (self : SelfDestructSystem) : list TamperEvent :=
  _tamper_events self.

(** *** Vocabulary of the statements about the monitor *)

(** The baselined path exists and hashes to its baseline digest. *)
Definition intact (fs : filesystem) (item : string * string) : bool :=
  path_exists fs (fst item)
  && match _calculate_hash fs (fst item) with
     | Ok current_hash => String.eqb current_hash (snd item)
     | Raise _ => false
     end.

(** The event [check_integrity] records for [path]. *)
Definition critical_event (ts : Z) (ty det path : string) : TamperEvent :=
  {| timestamp := ts; event_type := ty; details := det;
     severity := "critical"; file_path := Some path |}.

(** The system with one more event at the end of its log. *)
Definition with_event (self : SelfDestructSystem) (ev : TamperEvent)
  : SelfDestructSystem :=
  {| protected_paths := protected_paths self;
     _integrity_hashes := _integrity_hashes self;
     _tamper_events := _tamper_events self ++ [ev];
     _callbacks := _callbacks self;
     _armed := _armed self; _triggered := _triggered self |}.

End SelfDestruct.

(** *** Sample scenario: "model.bin" is baselined, then modified *)

Definition fs_baseline : filesystem := {[ "model.bin" := File "weights" ]}.
Definition fs_modified : filesystem := {[ "model.bin" := File "weights!" ]}.

Definition armed_system : SelfDestructSystem :=
  snd (arm (H := toy_hash) (SelfDestructSystem_init ["model.bin"]) fs_baseline).

End SelfDestruct.

(** ** Writing files, and the process environment *)

Module FSWrite.

(** [open(path, "wb")] followed by [f.write(data)]: the file is created or
    replaced as a whole; a directory cannot be opened for writing.  The
    directory that holds [path] is taken to exist and to be writable. *)
Definition write_bytes (fs : filesystem) (path : string) (data : bytes)
  : result filesystem :=
  match fs !! path with
  | Some Dir => Raise (IsADirectoryError path)
  | _ => Ok (<[path := File data]> fs)
  end.

(** [os.environ]. *)
Abbreviation environ := (gmap string string).

End FSWrite.
Import FSWrite.

(** ** [license_check.py], the remaining entry points *)

Module LicenseOps.
Import License.

Definition DEFAULT_ENV_VAR : string := "QUANTUM_FLOOR_LICENSE".

(** [check_env_license]: [os.environ.get] answers [None] for a variable that
    is not set, and an empty value is falsy as well. *)
Definition check_env_license (self : LicenseChecker) (env : environ)
    (env_var : string) (now : datetime) : LicenseInfo * LicenseChecker :=
  match env !! env_var with
  | None | Some EmptyString =>
      (LicenseInfo_failed ("Environment variable " ++ env_var ++ " not set"),
       self)
  | Some license_key => check_license_key self license_key now
  end.

(** [get_usage]: the dictionary it returns; a [LicenseInfo] is always
    truthy. *)
Definition get_usage (self : LicenseChecker) : gmap string Z :=
  <["requests_remaining" :=
      match _license_info self with
      | Some info =>
          if 0 <? max_requests info
          then max_requests info - _request_count self
          else -1
      | None => -1
      end]>
  (<["requests_limit" :=
      match _license_info self with
      | Some info => max_requests info
      | None => 0
      end]>
  (<["requests_made" := _request_count self]> ∅)).

(** The module-level [get_license_info(license_key)]. *)
Definition get_license_info (license_key : string) (now : datetime)
  : LicenseInfo :=
  fst (check_license_key (LicenseChecker_init None) license_key now).



(** *** Sample inputs *)

Definition trial_key : string := "REGIS-7B-C-TRIAL-2025".

Definition june_2025 : datetime := mkDatetime 2025 6 1 12 0 0 0.
Definition june_2026 : datetime := mkDatetime 2026 6 1 12 0 0 0.



Definition env_license : environ := {[ DEFAULT_ENV_VAR := trial_key ]}.

(** An octet below 0x80. *)
Definition chr_ascii (c : ascii) : bool := (cp c <? 128)%N.

(** The same file with the octet 0xA0 on its second line, and a key
    followed by 4300 zeros and a year. *)
Definition fs_license_bad_octet : filesystem :=
  {[ "license.key" :=
       File (trial_key ++ String LF (String (ascii_of_N 160) EmptyString)) ]}.

Fixpoint zeros (n : nat) : string :=
  match n with
  | O => EmptyString
  | S n' => String "0" (zeros n')
  end.

Definition long_year_key : string :=
  "A-B-C-" ++ zeros (N.to_nat 4300) ++ "2025".

End LicenseOps.

(** ** [fernet_manager.py], the file operations *)

Module ManagerFiles.
Import Manager.
Section ManagerFiles.
Context {L : FernetLib}.

(** [load_key_from_file]. *)
Definition load_key_from_file (self : FernetManager) (fs : filesystem)
    (key_path : string) : result unit * FernetManager :=
  match read_bytes fs key_path with
  | Raise e => (Raise e, self)
  | Ok key => load_key self key
  end.

(** [save_key_to_file]: the stored key octets are checked before the file
    is opened. *)
Definition save_key_to_file (self : FernetManager) (fs : filesystem)
    (key_path : string) : result filesystem :=
  match _key self with
  | None => Raise (ValueError "No key loaded")
  | Some key => write_bytes fs key_path key
  end.

(** [encrypt_file]: read, encrypt, then open the output. *)
Definition encrypt_file (self : FernetManager) (r : entropy) (fs : filesystem)
    (input_path output_path : string) : result filesystem :=
  bind (read_bytes fs input_path) (fun data =>
  bind (encrypt self r data) (fun encrypted =>
  write_bytes fs output_path encrypted)).

(** [decrypt_file]. *)
Definition decrypt_file (self : FernetManager) (fs : filesystem)
    (input_path output_path : string) : result filesystem :=
  bind (read_bytes fs input_path) (fun encrypted =>
  bind (decrypt self encrypted) (fun decrypted =>
  write_bytes fs output_path decrypted)).

(** [decrypt_to_memory]. *)
Definition decrypt_to_memory (self : FernetManager) (fs : filesystem)
    (input_path : string) : result bytes :=
  bind (read_bytes fs input_path) (fun encrypted => decrypt self encrypted).

(** The module-level [encrypt_model(model_path, output_path, key)]; [fresh]
    is what [Fernet.generate_key()] draws when [key] is [None]. *)
Definition encrypt_model (fs : filesystem) (r : entropy) (fresh : bytes)
    (model_path output_path : string) (key : option bytes)
  : result (bytes * filesystem) :=
  let manager := FernetManager_init in
  match key with
  | None =>
      let '(k, manager1) := generate_key manager fresh in
      bind k (fun key1 =>
      bind (encrypt_file manager1 r fs model_path output_path) (fun fs' =>
      Ok (key1, fs')))
  | Some key0 =>
      let '(l, manager1) := load_key manager key0 in
      bind l (fun _ =>
      bind (encrypt_file manager1 r fs model_path output_path) (fun fs' =>
      Ok (key0, fs')))
  end.

(** The module-level [decrypt_model_to_memory(encrypted_path, key)]. *)
Definition decrypt_model_to_memory (fs : filesystem) (encrypted_path : string)
    (key : bytes) : result bytes :=
  let '(l, manager1) := load_key FernetManager_init key in
  bind l (fun _ => decrypt_to_memory manager1 fs encrypted_path).

End ManagerFiles.

(** *** Sample files *)

Definition fs_model : filesystem := {[ "model.bin" := File Toy.sample_data ]}.

(** A second retired key and a key that is too long for the sample
    instance. *)
Definition third_key : bytes := "pk".
Definition bad_key : bytes := "not a key".

(** A manager with the sample key loaded. *)
Definition loaded_manager : FernetManager (L := Toy.toy) :=
  snd (load_key (L := Toy.toy) FernetManager_init Toy.new_key).

End ManagerFiles.

(** ** [quantum_lock.py], the remaining methods *)

Module LockOps.
Import Lock.
Section LockOps.
Context {L : FernetLib} {H : HashLib}.

(** The dataclass [LockStatus]. *)
Record LockStatus : Type := mkLockStatus {
  is_locked : bool;
  is_valid : bool;
  license_type : string;
  expires : option string;
  model_name : string;
  integrity_verified : bool
}.

(** The line that [_trigger_tamper_alert] prints to [sys.stderr]. *)
Definition tamper_alert (self : QuantumLock) : string :=
  "[QUANTUM LOCK] Tampering attempt detected for " ++ Lock.model_name self.

(** [encrypt]. *)
Definition encrypt (self : QuantumLock) (r : entropy) (data : bytes)
  : result bytes :=
  match _fernet self with
  | None => Raise (RuntimeError "Lock not initialized. Call verify_license first.")
  | Some f => Ok (fernet_encrypt f r data)
  end.

(** [decrypt]: the outcome and the lines written to [sys.stderr]; only
    [InvalidToken] goes through the tamper alert before it is raised
    again. *)
Definition decrypt (self : QuantumLock) (encrypted_data : bytes)
  : result bytes * list string :=
  match _is_verified self, _fernet self with
  | true, Some f =>
      match fernet_decrypt f encrypted_data with
      | Ok data => (Ok data, [])
      | Raise InvalidToken => (Raise InvalidToken, [tamper_alert self])
      | Raise e => (Raise e, [])
      end
  | _, _ => (Raise (RuntimeError "Lock not verified. Call verify_license first."), [])
  end.

(** [get_status]. *)
Definition get_status (self : QuantumLock) : LockStatus :=
  {| is_locked := negb (_is_verified self);
     is_valid := _is_verified self;
     license_type := default "unknown" (_license_data self !! "type");
     expires := _license_data self !! "expires";
     model_name := Lock.model_name self;
     integrity_verified := _is_verified self |}.

(** [hashlib.sha256(data).hexdigest()]. *)
Definition sha256_hex (data : bytes) : string :=
  sha256_hexdigest (sha256_update sha256_new data).

(** [verify_integrity]: the outcome and the lines written to
    [sys.stderr]. *)
Definition verify_integrity (self : QuantumLock) (fs : filesystem)
    (file_path expected_hash : string) : result bool * list string :=
  match read_bytes fs file_path with
  | Raise e => (Raise e, [])
  | Ok data =>
      if negb (String.eqb (sha256_hex data) expected_hash)
      then (Ok false, [tamper_alert self])
      else (Ok true, [])
  end.

(** The static [generate_lock(output_path)], on the key that
    [Fernet.generate_key()] drew. *)
Definition generate_lock (fs : filesystem) (output_path : string)
    (fresh : bytes) : result (bytes * filesystem) :=
  bind (write_bytes fs output_path (LOCK_PREFIX ++ fresh)) (fun fs' =>
  Ok (fresh, fs')).

(** The calls that change a lock, each with the file system it sees. *)
Inductive lock_op : Type :=
| OpVerify (fs : filesystem) (license_key : string)
| OpClose.

Definition run_lock_op (self : QuantumLock) (o : lock_op) : QuantumLock :=
  match o with
  | OpVerify fs license_key => snd (verify_license self fs license_key)
  | OpClose => close self
  end.

Definition run_lock_ops (self : QuantumLock) (ops : list lock_op) : QuantumLock :=
  fold_left run_lock_op ops self.

(** What holds of a lock from its construction on: it keeps its path and
    name, it is verified exactly when it holds a cipher, and its license
    data has no entry "expires". *)
Definition lock_inv (path name : string) (l : QuantumLock) : Prop :=
  lock_path l = path
  /\ Lock.model_name l = name
  /\ _is_verified l = match _fernet l with Some _ => true | None => false end
  /\ _license_data l !! "expires" = None.

(** *** [QuantumLockManager] *)

(** The registry [_locks], a dictionary from model name to lock. *)
Record QuantumLockManager : Type := mkQuantumLockManager {
  _locks : gmap string QuantumLock
}.

Definition QuantumLockManager_init : QuantumLockManager :=
  {| _locks := ∅ |}.

(** [register]: the lock is constructed before the registry is touched. *)
Definition register (self : QuantumLockManager) (fs : filesystem)
    (name path : string) : result unit * QuantumLockManager :=
  match QuantumLock_init fs path name with
  | Raise e => (Raise e, self)
  | Ok lock => (Ok tt, {| _locks := <[name := lock]> (_locks self) |})
  end.

(** [get]. *)
Definition get (self : QuantumLockManager) (name : string)
  : option QuantumLock :=
  _locks self !! name.

(** [verify_all]: the dictionary of answers, and the registry whose locks
    have each gone through [verify_license]. *)
Definition verify_all (self : QuantumLockManager) (fs : filesystem)
    (license_key : string) : gmap string bool * QuantumLockManager :=
  ((fun lock => fst (verify_license lock fs license_key)) <$> _locks self,
   {| _locks := (fun lock => snd (verify_license lock fs license_key))
                  <$> _locks self |}).

(** [close_all]: every lock is closed, then the registry is emptied. *)
Definition close_all (self : QuantumLockManager) : QuantumLockManager :=
  {| _locks := ∅ |}.

End LockOps.

(** *** Sample locks *)

Definition verified_lock : QuantumLock (L := Toy.toy) :=
  snd (verify_license (L := Toy.toy) sample_lock fs_lock "TEST-LICENSE-KEY").

(** The lock file replaced by a file without the prefix. *)
Definition fs_garbled : filesystem := {[ "lock.bin" := File "garbage" ]}.

Definition sample_registry : QuantumLockManager (L := Toy.toy) :=
  {| _locks := {[ "test_model" := sample_lock ]} |}.

End LockOps.

(** ** [self_destruct.py], sequences of events *)

Module Monitor.
Import SelfDestruct.
Section Monitor.
Context {H : HashLib}.

(** [add_callback]. *)
Definition add_callback (self : SelfDestructSystem) (cb : callback)
  : SelfDestructSystem :=
  {| protected_paths := protected_paths self;
     _integrity_hashes := _integrity_hashes self;
     _tamper_events := _tamper_events self;
     _callbacks := _callbacks self ++ [cb];
     _armed := _armed self; _triggered := _triggered self |}.

(** [d.get(k)] on the ordered dictionary. *)
Fixpoint dict_get (k : string) (d : hash_dict) : option string :=
  match d with
  | [] => None
  | (k', v) :: d' => if String.eqb k k' then Some v else dict_get k d'
  end.

(** The arguments of one call of [_record_tamper], with the clock reading
    it gets. *)
Record report : Type := mkReport {
  r_ts : Z;
  r_type : string;
  r_details : string;
  r_severity : string;
  r_path : option string
}.

Definition report_event (rp : report) : TamperEvent :=
  {| timestamp := r_ts rp; event_type := r_type rp; details := r_details rp;
     severity := r_severity rp; file_path := r_path rp |}.

(** Consecutive calls of [_record_tamper] made by a host that catches
    [SystemExit] and goes on: the outcome of each call and the system after
    the last. *)
Fixpoint record_all (self : SelfDestructSystem) (rps : list report)
  : list (result unit) * SelfDestructSystem :=
  match rps with
  | [] => ([], self)
  | rp :: rest =>
      let '(r, self1) :=
        _record_tamper self (r_ts rp) (r_type rp) (r_details rp)
          (r_severity rp) (r_path rp) in
      let '(rs, self2) := record_all self1 rest in
      (r :: rs, self2)
  end.

(** The report is of fatal severity. *)
Definition is_fatal (rp : report) : bool :=
  String.eqb (r_severity rp) SEVERITY_FATAL.

(** The number of calls that raised. *)
Definition count_raised (rs : list (result unit)) : nat :=
  length (List.filter (fun r => negb (is_ok r)) rs).

(** The streaming contract of [hashlib]: feeding a message in pieces is
    feeding it whole. *)
Class HashLaws : Prop := {
  update_app : forall st a b,
    sha256_update (sha256_update st a) b = sha256_update st (a ++ b);
  update_empty : forall st, sha256_update st EmptyString = st
}.

End Monitor.

(** *** Sample reports and file systems *)

Definition debugger_report : report :=
  {| r_ts := 1700000001; r_type := "debugger_detected";
     r_details := "Linux debugger detected (PID: 4242)";
     r_severity := "fatal"; r_path := None |}.

Definition warning_report : report :=
  {| r_ts := 1700000000; r_type := "probe"; r_details := "unexpected access";
     r_severity := "warning"; r_path := None |}.

(** The baselined file removed. *)
Definition fs_deleted : filesystem := ∅.

End Monitor.

(** * Properties *)

(** ** Sanity checks of the runtime fragment *)

Example split_sample :
  str_split "-" "REGIS-7B-C-LICENSE-TRIAL-2025"
  = ["REGIS"; "7B"; "C"; "LICENSE"; "TRIAL"; "2025"].
Proof. reflexivity. Qed.

Example split_empty : str_split "-" "" = [""].
Proof. reflexivity. Qed.

Example strip_sample : str_strip ("  key " ++ String LF "") = "key".
Proof. reflexivity. Qed.

Example int_sample : int_of_str "2025" = Ok 2025.
Proof. reflexivity. Qed.

Example int_superscript :
  str_isdigit (String (ascii_of_N 178) "") = true
  /\ is_ok (int_of_str (String (ascii_of_N 178) "")) = false.
Proof. split; reflexivity. Qed.

(** What the modelled calls raise derives from [Exception], so the
    [except Exception] handlers of the code catch it. *)
Lemma int_of_str_raises s e : int_of_str s = Raise e -> is_Exception e = true.
Proof.
  unfold int_of_str. destruct s; [intros [= <-]; reflexivity|].
  destruct (MAX_STR_DIGITS <? _)%nat; [intros [= <-]; reflexivity|].
  destruct (digits_value 0 _); [discriminate | intros [= <-]; reflexivity].
Qed.

Lemma as_c_int_raises z e : as_c_int z = Raise e -> is_Exception e = true.
Proof.
  unfold as_c_int.
  repeat match goal with
         | |- context [if ?b then _ else _] => destruct b
         end; try discriminate; intros [= <-]; reflexivity.
Qed.

Lemma as_c_int_fits z : - 2 ^ 31 <= z <= 2 ^ 31 - 1 -> as_c_int z = Ok z.
Proof.
  intros Hz. unfold as_c_int, in_range.
  destruct (Z.leb_spec (- 2 ^ 63) z); [|lia].
  destruct (Z.leb_spec z (2 ^ 63 - 1)); [|lia].
  destruct (Z.ltb_spec (2 ^ 31 - 1) z); [lia|].
  destruct (Z.ltb_spec z (- 2 ^ 31)); [lia|]. reflexivity.
Qed.

Lemma datetime_checked_raises y mo d h mi s e :
  datetime_checked y mo d h mi s = Raise e -> is_Exception e = true.
Proof.
  unfold datetime_checked.
  repeat match goal with
         | |- context [if ?b then _ else _] => destruct b
         end; intros [= <-]; reflexivity.
Qed.

Lemma datetime_new_raises y mo d h mi s e :
  datetime_new y mo d h mi s = Raise e -> is_Exception e = true.
Proof.
  unfold datetime_new.
  repeat match goal with
         | |- context [bind (as_c_int ?z) _] =>
             let E := fresh "E" in
             destruct (as_c_int z) eqn:E; cbn [bind];
             [|intros [= <-]; eapply as_c_int_raises, E]
         end.
  apply datetime_checked_raises.
Qed.

Lemma read_bytes_raises fs path e :
  read_bytes fs path = Raise e -> is_Exception e = true.
Proof.
  unfold read_bytes. destruct (fs !! path) as [[|data]|];
    intros [= <-]; reflexivity.
Qed.



(** ** [LicenseChecker] *)

Module LicenseProps.
Import License.

Example verify_trial_2025 :
  verify_license "REGIS-7B-C-LICENSE-TRIAL-2025" (noon 2025 6 1) = true.
Proof. vm_compute. reflexivity. Qed.

Example verify_trial_2020 :
  verify_license "REGIS-7B-C-LICENSE-TRIAL-2020" (noon 2025 6 1) = false.
Proof. vm_compute. reflexivity. Qed.

Lemma datetime_new_end_of_year Y :
  1 <= Y <= 9999 ->
  datetime_new Y 12 31 23 59 59 = Ok (mkDatetime Y 12 31 23 59 59 0).
Proof.
  intros HY. unfold datetime_new.
  rewrite (as_c_int_fits Y) by lia. cbn [bind].
  change (datetime_checked Y 12 31 23 59 59
          = Ok (mkDatetime Y 12 31 23 59 59 0)).
  unfold datetime_checked, in_range, MINYEAR, MAXYEAR.
  replace (1 <=? Y) with true by (symmetry; apply Z.leb_le; lia).
  replace (Y <=? 9999) with true by (symmetry; apply Z.leb_le; lia).
  reflexivity.
Qed.

Lemma datetime_new_out_of_range Y mo d h mi s :
  ~ (1 <= Y <= 9999) -> is_ok (datetime_new Y mo d h mi s) = false.
Proof.
  intros HY. unfold datetime_new.
  repeat match goal with
         | |- context [bind (as_c_int ?z) _] =>
             destruct (as_c_int z); cbn [bind]; [|reflexivity]
         end.
  unfold datetime_checked, in_range, MINYEAR, MAXYEAR.
  destruct (Z.leb_spec 1 Y), (Z.leb_spec Y 9999); simpl; try reflexivity.
  lia.
Qed.

Lemma parsed_expiry_year_inv key Y :
  parsed_expiry_year key = Some Y ->
  (length (str_split "-" key) <? 3)%nat = false
  /\ parse_year (str_split "-" key) = Ok Y.
Proof.
  unfold parsed_expiry_year.
  destruct (length (str_split "-" key) <? 3)%nat; [discriminate|].
  destruct (parse_year (str_split "-" key)); [|discriminate].
  intros [= ->]. split; reflexivity.
Qed.

Lemma record_requests_count n self :
  _request_count (record_requests n self) = _request_count self + Z.of_nat n.
Proof.
  induction n as [|n IH].
  - simpl. lia.
  - unfold record_requests in *. simpl Nat.iter. simpl _request_count.
    rewrite IH. lia.
Qed.

Lemma record_requests_info n self :
  _license_info (record_requests n self) = _license_info self.
Proof.
  induction n as [|n IH]; [reflexivity|].
  unfold record_requests in *. simpl. exact IH.
Qed.

(** The handler of [check_license_key] sees every exception of its block. *)
Lemma check_license_key_try_raises self key now e :
  check_license_key_try self key now = Raise e -> is_Exception e = true.
Proof.
  unfold check_license_key_try.
  destruct (length (str_split "-" key) <? 3)%nat; [discriminate|].
  unfold parse_year.
  destruct (str_isdigit (list_last (str_split "-" key))).
  - destruct (int_of_str (list_last (str_split "-" key))) as [year|e0] eqn:Hint.
    + cbn [bind].
      destruct (datetime_new year 12 31 23 59 59) as [exp|e1] eqn:Hdt.
      * cbn [bind]. destruct (datetime_gt now exp); discriminate.
      * cbn [bind]. intros [= <-]. eapply datetime_new_raises, Hdt.
    + cbn [bind]. intros [= <-]. eapply int_of_str_raises, Hint.
  - cbn [bind].
    destruct (datetime_new 2025 12 31 23 59 59) as [exp|e1] eqn:Hdt.
    + cbn [bind]. destruct (datetime_gt now exp); discriminate.
    + cbn [bind]. intros [= <-]. eapply datetime_new_raises, Hdt.
Qed.

Example enterprise_unlimited :
  max_requests (fst (check_license_key (LicenseChecker_init None)
                       "REGIS-7B-C-ENTERPRISE-2025" (noon 2025 6 1))) = -1.
Proof. vm_compute. reflexivity. Qed.

(** What [check_license_key] does on a key of at least three segments
    whose year [datetime] accepts. *)
Lemma check_license_key_in_range self key now Y :
  parsed_expiry_year key = Some Y -> 1 <= Y <= 9999 ->
  let parts := str_split "-" key in
  let ty := if (3 <? length parts)%nat then str_lower (part3 parts) else "trial" in
  let mdl := str_join "-" (firstn 3 parts) in
  let exp := mkDatetime Y 12 31 23 59 59 0 in
  check_license_key self key now =
  if datetime_gt now exp then
    ({| is_valid := false; license_type := ty; model := mdl;
        expires := Some exp; features := []; max_requests := 0;
        hardware_locked := false; error := Some "License has expired" |}, self)
  else
    let info := {| is_valid := true; license_type := ty; model := mdl;
                   expires := Some exp; features := _get_features ty;
                   max_requests := _get_request_limit ty;
                   hardware_locked := false; error := None |} in
    (info, set_license_info self info).
Proof.
  intros Hy HY. apply parsed_expiry_year_inv in Hy as [Hlen Hyear].
  unfold check_license_key, check_license_key_try.
  rewrite Hlen, Hyear. cbn [bind].
  rewrite (datetime_new_end_of_year Y HY). cbn [bind].
  assert (Hge : (3 <=? length (str_split "-" key))%nat = true).
  { apply Nat.leb_le. apply Nat.ltb_ge in Hlen. exact Hlen. }
  rewrite Hge.
  destruct (datetime_gt now (mkDatetime Y 12 31 23 59 59 0)); reflexivity.
Qed.

Lemma datetime_gt_end_of_year now Y :
  datetime_gt now (mkDatetime Y 12 31 23 59 59 0) = after_end_of_year now Y.
Proof. reflexivity. Qed.

(** A key whose last segment is not numeric gets the year 2025, whatever
    its other segments are. *)
Lemma parsed_expiry_year_default key :
  (length (str_split "-" key) <? 3)%nat = false ->
  str_isdigit (list_last (str_split "-" key)) = false ->
  parsed_expiry_year key = Some 2025.
Proof.
  intros Hlen Hdig. unfold parsed_expiry_year, parse_year.
  now rewrite Hlen, Hdig.
Qed.

(** C3: on the key "REGIS-7B-C-STANDARD-2030-ABC123", whose YEAR segment is
    2030 and whose last segment is a customer hash, [check_license_key]
    takes the default year 2025: in June 2026 it reports the license as
    expired at the end of 2025, with model "REGIS-7B-C" and type
    "standard". *)
Theorem check_license_key_customer_hash_year :
  check_license_key (LicenseChecker_init None)
    "REGIS-7B-C-STANDARD-2030-ABC123" (noon 2026 6 1)
  = ({| is_valid := false; license_type := "standard"; model := "REGIS-7B-C";
        expires := Some (mkDatetime 2025 12 31 23 59 59 0);
        features := []; max_requests := 0; hardware_locked := false;
        error := Some "License has expired" |},
     LicenseChecker_init None).
Proof. vm_compute. reflexivity. Qed.

(** The same key without the customer hash is valid until the end of 2030. *)
Example check_license_key_year_last :
  is_valid (fst (check_license_key (LicenseChecker_init None)
                   "REGIS-7B-C-STANDARD-2030" (noon 2026 6 1))) = true
  /\ expires (fst (check_license_key (LicenseChecker_init None)
                     "REGIS-7B-C-STANDARD-2030" (noon 2026 6 1)))
     = Some (mkDatetime 2030 12 31 23 59 59 0).
Proof. vm_compute. split; reflexivity. Qed.

(** The split of a stripped text is never the empty list, so the branch
    "Empty license file" of [check_license_file] is never taken. *)
Lemma check_license_file_blank self fs now p text :
  license_path self = Some p ->
  read_text fs p = Ok text ->
  str_strip text = "" ->
  check_license_file self fs now
  = Ok (LicenseInfo_failed "Invalid license key format", self).
Proof.
  intros Hp Hread Hblank. unfold check_license_file. rewrite Hp.
  assert (Hex : path_exists fs p = true).
  { unfold path_exists. unfold read_text, read_bytes in Hread.
    destruct (fs !! p); [reflexivity | discriminate]. }
  rewrite Hex, Hread. simpl. rewrite Hblank. reflexivity.
Qed.

(** C4: with no file at the license path [check_license_file] returns the
    error "License file not found"; on a file that exists and holds only
    white space it returns "Invalid license key format", the error of a
    malformed key, and not "Empty license file". *)
Theorem check_license_file_absent_and_blank :
  check_license_file file_checker ∅ (noon 2025 6 1)
  = Ok (LicenseInfo_failed "License file not found", file_checker)
  /\ check_license_file file_checker {[ "license.key" := File blank_text ]}
       (noon 2025 6 1)
     = Ok (LicenseInfo_failed "Invalid license key format", file_checker)
  /\ check_license_file file_checker {[ "license.key" := File "" ]}
       (noon 2025 6 1)
     = Ok (check_license_key file_checker "" (noon 2025 6 1)).
Proof. vm_compute. repeat split; reflexivity. Qed.

(** C5: with a valid, unexpired license of quota [n > 0] and a usage counter
    of zero, after [n] calls of [record_request] [can_make_request] answers
    [(false, "Request limit exceeded")]; with the quota [-1] it never gives
    that reason, whatever the number of calls and the time, and answers
    [(true, "OK")] as long as the license is unexpired. *)
Theorem quota_enforcement (self : LicenseChecker) (info : LicenseInfo)
    (now : datetime) :
  _license_info self = Some info ->
  is_valid info = true ->
  unexpired info now ->
  _request_count self = 0 ->
  (0 < max_requests info ->
   can_make_request (record_requests (Z.to_nat (max_requests info)) self) now
   = (false, "Request limit exceeded"))
  /\ (max_requests info = -1 ->
      forall k : nat,
        can_make_request (record_requests k self) now = (true, "OK")
        /\ forall t, snd (can_make_request (record_requests k self) t)
                     <> "Request limit exceeded").
Proof.
  intros Hinfo Hvalid Hunexp Hzero.
  assert (Hexp : match expires info with
                 | Some e => datetime_gt now e
                 | None => false
                 end = false).
  { unfold unexpired in Hunexp. destruct (expires info); [exact Hunexp | reflexivity]. }
  split.
  - intros Hpos. unfold can_make_request.
    rewrite record_requests_info, Hinfo, Hvalid, Hexp, record_requests_count, Hzero.
    simpl negb. cbv iota.
    replace (0 <? max_requests info) with true by (symmetry; apply Z.ltb_lt; lia).
    replace (max_requests info <=? 0 + Z.of_nat (Z.to_nat (max_requests info)))
      with true by (symmetry; apply Z.leb_le; lia).
    reflexivity.
  - intros Hunl k. unfold can_make_request.
    rewrite record_requests_info, Hinfo, Hvalid, Hunl. simpl negb. cbv iota.
    split.
    + rewrite Hexp. reflexivity.
    + intros t. destruct (match expires info with
                          | Some e => datetime_gt t e
                          | None => false
                          end); simpl; discriminate.
Qed.

(** A license of quota 3, as in the scenario of the specification. *)
Lemma quota_enforcement_witness :
  can_make_request
    (record_request (record_request (record_request quota3_checker)))
    (noon 2025 6 1)
  = (false, "Request limit exceeded").
Proof.
  apply (proj1 (quota_enforcement quota3_checker quota3_info (noon 2025 6 1)
                  eq_refl eq_refl eq_refl eq_refl)).
  reflexivity.
Defined.


(** Year 0 likewise: every moment lies after its end, and the error is not
    "License has expired". *)
Example expiry_year_zero :
  parsed_expiry_year "A-B-C-0000" = Some 0
  /\ after_end_of_year (noon 2026 6 1) 0 = true
  /\ error (fst (check_license_key (LicenseChecker_init None) "A-B-C-0000"
                   (noon 2026 6 1)))
     = Some "License validation error: year 0 is out of range".
Proof. vm_compute. repeat split; reflexivity. Qed.



(** C10: a call of [check_license_key] that returns [is_valid = false]
    leaves the checker as it was, so [has_feature] and [can_make_request]
    answer as before; a call that returns [is_valid = true] stores exactly
    the returned [LicenseInfo] and touches nothing else. *)
Theorem check_license_key_atomic (self : LicenseChecker) (key : string)
    (now : datetime) :
  let info := fst (check_license_key self key now) in
  let self' := snd (check_license_key self key now) in
  self' = (if is_valid info then set_license_info self info else self)
  /\ (is_valid info = false ->
      forall feature t,
        has_feature self' feature = has_feature self feature
        /\ can_make_request self' t = can_make_request self t).
Proof.
  cbv zeta.
  assert (Hst : snd (check_license_key self key now)
                = if is_valid (fst (check_license_key self key now))
                  then set_license_info self (fst (check_license_key self key now))
                  else self).
  { unfold check_license_key, check_license_key_try.
    destruct (length (str_split "-" key) <? 3)%nat; [reflexivity|].
    destruct (parse_year (str_split "-" key)) as [year|e]; [|reflexivity].
    cbn [bind].
    destruct (datetime_new year 12 31 23 59 59) as [exp|e]; [|reflexivity].
    cbn [bind].
    destruct (datetime_gt now exp); reflexivity. }
  split; [exact Hst|].
  intros Hinvalid feature t. rewrite Hst, Hinvalid. split; reflexivity.
Qed.

End LicenseProps.

(** ** [FernetManager] *)

Module ManagerProps.
Import Manager Toy.

Lemma str_app_cons (c : ascii) (a b : string) :
  (String c a ++ b)%string = String c (a ++ b).
Proof. reflexivity. Qed.

Lemma str_length_app (a b : string) :
  String.length (a ++ b) = (String.length a + String.length b)%nat.
Proof.
  induction a as [|x a IH]; [reflexivity|].
  rewrite str_app_cons. cbn [String.length]. now rewrite IH.
Qed.

Lemma str_app_assoc (a b c : string) : ((a ++ b) ++ c = a ++ (b ++ c))%string.
Proof.
  induction a as [|x a IH]; [reflexivity|].
  rewrite !str_app_cons. now rewrite IH.
Qed.

Lemma str_drop_app (a b : string) : str_drop (String.length a) (a ++ b) = b.
Proof.
  induction a as [|x a IH]; [reflexivity|].
  rewrite str_app_cons. cbn [String.length str_drop]. exact IH.
Qed.

Lemma le_encode_length n t : String.length (le_encode n t) = n.
Proof.
  revert t. induction n as [|n IH]; intros t; simpl; [reflexivity|].
  now rewrite IH.
Qed.

Lemma le_decode_encode n t rest :
  0 <= t < 256 ^ Z.of_nat n ->
  le_decode n (le_encode n t ++ rest) = t.
Proof.
  revert t. induction n as [|n IH]; intros t Ht.
  - simpl in *. destruct rest; lia.
  - cbn [le_encode]. rewrite str_app_cons. cbn [le_decode].
    rewrite N_ascii_embedding.
    + rewrite IH.
      * rewrite Z2N.id by (apply Z.mod_pos_bound; lia).
        pose proof (Z.div_mod t 256 ltac:(lia)). lia.
      * rewrite Nat2Z.inj_succ, Z.pow_succ_r in Ht by lia.
        split; [apply Z.div_pos; lia | apply Z.div_lt_upper_bound; lia].
    + pose proof (Z.mod_pos_bound t 256 ltac:(lia)) as Hm.
      change 256%N with (Z.to_N 256). apply Z2N.inj_lt; lia.
Qed.

(** The sample instance meets the contract. *)
Lemma toy_laws : FernetLaws toy.
Proof.
  split.
  - intros [a b] data t iv Ht Hiv. cbn [decrypt_data encrypt_from_parts toy].
    unfold toy_encrypt, toy_decrypt. cbn [fst snd].
    rewrite !Ascii.eqb_refl. cbn [andb].
    assert (Hlen : (24 <=? String.length (le_encode 8 t ++ iv ++ data))%nat = true).
    { apply Nat.leb_le. rewrite !str_length_app, le_encode_length.
      unfold iv_ok in Hiv. rewrite Hiv. lia. }
    rewrite Hlen. f_equal. f_equal.
    + apply le_decode_encode. unfold ts_ok in Ht.
      change (256 ^ Z.of_nat 8) with (2 ^ 64). exact Ht.
    + rewrite <- str_app_assoc.
      replace 24%nat with (String.length (le_encode 8 t ++ iv))
        by (rewrite str_length_app, le_encode_length; unfold iv_ok in Hiv;
            rewrite Hiv; reflexivity).
      apply str_drop_app.
Qed.

Lemma sample_entropy_ok : entropy_ok sample_entropy.
Proof. split; [unfold ts_ok; cbn; lia | reflexivity]. Qed.

Section Generic.
Context {L : FernetLib}.

Lemma run_ops_cleared (ops : list op) :
  run_ops FernetManager_init ops = (map not_initialized ops, FernetManager_init).
Proof.
  unfold FernetManager_init.
  induction ops as [|o ops IH]; [reflexivity|].
  cbn [run_ops map].
  destruct o; cbn [run_op encrypt decrypt rotate_encrypt clear bind
                   _fernet _multi_fernet not_initialized];
    unfold clear; rewrite IH; reflexivity.
Qed.

(** C7: [clear] empties the three attributes; from then on, through any
    sequence of calls that hand no key to the manager, [encrypt] and
    [decrypt] raise [ValueError("No key loaded")], [rotate_encrypt] raises
    [ValueError("Key rotation not configured")] and the attributes stay
    empty; once [load_key] has been given a key that [Fernet] accepts,
    [encrypt] works again. *)
Theorem clear_requires_reinitialization (self : FernetManager) (ops : list op) :
  clear self = {| _fernet := None; _multi_fernet := None; _key := None |}
  /\ run_ops (clear self) ops = (map not_initialized ops, clear self)
  /\ (forall r data, encrypt (clear self) r data = Raise (ValueError "No key loaded"))
  /\ (forall token, decrypt (clear self) token = Raise (ValueError "No key loaded"))
  /\ (forall new_iv token,
        rotate_encrypt (clear self) new_iv token
        = Raise (ValueError "Key rotation not configured"))
  /\ (forall key f r data,
        Fernet_new key = Some f ->
        encrypt (snd (load_key (snd (run_ops (clear self) ops)) key)) r data
        = Ok (fernet_encrypt f r data)).
Proof.
  split; [reflexivity|].
  split; [apply run_ops_cleared|].
  split; [reflexivity|].
  split; [reflexivity|].
  split; [reflexivity|].
  intros key f r data Hkey.
  change (clear self) with FernetManager_init. rewrite run_ops_cleared.
  cbn [snd]. unfold load_key, Fernet. rewrite Hkey. reflexivity.
Qed.

Context {Laws : FernetLaws L}.

Lemma fernet_roundtrip (f : fernet) r data :
  entropy_ok r -> fernet_decrypt f (fernet_encrypt f r data) = Ok data.
Proof.
  intros [Ht Hiv]. unfold fernet_decrypt, fernet_encrypt.
  now rewrite decrypt_encrypt.
Qed.

(** C9: on a manager with an active key, decrypting what [encrypt] returned
    for [data] returns [data]. *)
Theorem decrypt_encrypt_roundtrip (self : FernetManager) (f : fernet)
    (r : entropy) (data : bytes) :
  _fernet self = Some f ->
  entropy_ok r ->
  bind (encrypt self r data) (decrypt self) = Ok data.
Proof.
  intros Hf Hr. unfold encrypt, decrypt. rewrite Hf. cbn [bind].
  apply fernet_roundtrip. exact Hr.
Qed.

(** C1 (amended): after [setup_key_rotation(new_key, [old_key])] the
    manager's [decrypt] is the decryption under [new_key] alone, on every
    token: the retired key plays no part in it.  A token made under
    [old_key] that [Fernet(new_key)] does not authenticate is therefore
    rejected with [InvalidToken].  [encrypt] uses [new_key].
    [rotate_encrypt] always accepts the token made under [old_key]; when
    [Fernet(new_key)] does not authenticate it, the result is the token of
    the same plaintext made under [new_key], with the time stamp of the
    original, and [decrypt] opens it to that plaintext. *)
Theorem rotation_reencrypts (self : FernetManager) (new_key old_key : bytes)
    (fnew fold : fernet) (r : entropy) (new_iv data : bytes) :
  Fernet_new new_key = Some fnew ->
  Fernet_new old_key = Some fold ->
  entropy_ok r ->
  iv_ok new_iv ->
  let rotated := snd (setup_key_rotation self new_key [old_key]) in
  let token := fernet_encrypt fold r data in
  fst (setup_key_rotation self new_key [old_key]) = Ok tt
  /\ (forall any_token, decrypt rotated any_token = fernet_decrypt fnew any_token)
  /\ (forall r' d, encrypt rotated r' d = Ok (fernet_encrypt fnew r' d))
  /\ is_ok (rotate_encrypt rotated new_iv token) = true
  /\ (decrypt_data fnew token = None ->
      decrypt rotated token = Raise InvalidToken
      /\ rotate_encrypt rotated new_iv token
         = Ok (encrypt_from_parts fnew data (current_time r) new_iv)
      /\ bind (rotate_encrypt rotated new_iv token) (decrypt rotated)
         = Ok data).
Proof.
  intros Hnew Hold [Ht Hiv] Hniv rotated token.
  assert (Hsetup : setup_key_rotation self new_key [old_key]
                   = (Ok tt, {| _fernet := Some fnew;
                                _multi_fernet := Some [fnew; fold];
                                _key := Some new_key |})).
  { unfold setup_key_rotation, Fernet_all, Fernet. rewrite Hnew, Hold.
    cbn [bind MultiFernet]. reflexivity. }
  assert (Hold_opens : decrypt_data fold token = Some (current_time r, data)).
  { unfold token, fernet_encrypt. now apply decrypt_encrypt. }
  subst rotated. rewrite Hsetup. cbn [fst snd].
  split; [reflexivity|].
  split; [reflexivity|].
  split; [reflexivity|].
  unfold rotate_encrypt, decrypt, multi_rotate.
  cbn [_multi_fernet _fernet multi_decrypt_data].
  split.
  - destruct (decrypt_data fnew token) as [[t' d']|]; [reflexivity|].
    now rewrite Hold_opens.
  - intros Hreject. unfold fernet_decrypt at 1. rewrite Hreject, Hold_opens.
    split; [reflexivity|]. split; [reflexivity|].
    cbn [bind]. unfold fernet_decrypt. now rewrite decrypt_encrypt.
Qed.

End Generic.

(** C1, as stated, fails: after [setup_key_rotation("nk", ["ok"])] the
    manager's [decrypt] raises [InvalidToken] on a token made under the
    retired key. *)
Lemma rotation_decrypt_counterexample :
  toy_new old_key = Some ("o"%char, "k"%char)
  /\ fst (setup_key_rotation (L := toy) FernetManager_init new_key [old_key]) = Ok tt
  /\ decrypt (L := toy)
       (snd (setup_key_rotation (L := toy) FernetManager_init new_key [old_key]))
       (fernet_encrypt (L := toy) ("o"%char, "k"%char) sample_entropy sample_data)
     = Raise InvalidToken.
Proof. vm_compute. repeat split; reflexivity. Qed.

Lemma decrypt_encrypt_roundtrip_witness :
  bind (encrypt (L := toy) (snd (load_key (L := toy) FernetManager_init new_key))
          sample_entropy sample_data)
       (decrypt (L := toy) (snd (load_key (L := toy) FernetManager_init new_key)))
  = Ok sample_data.
Proof.
  apply (decrypt_encrypt_roundtrip (L := toy) (Laws := toy_laws)
           (snd (load_key (L := toy) FernetManager_init new_key))
           ("n"%char, "k"%char) sample_entropy sample_data eq_refl
           sample_entropy_ok).
Defined.

Lemma rotation_reencrypts_witness :
  rotate_encrypt (L := toy)
    (snd (setup_key_rotation (L := toy) FernetManager_init new_key [old_key]))
    sample_iv
    (fernet_encrypt (L := toy) ("o"%char, "k"%char) sample_entropy sample_data)
  = Ok (toy_encrypt ("n"%char, "k"%char) sample_data 1700000000 sample_iv)
  /\ bind (rotate_encrypt (L := toy)
             (snd (setup_key_rotation (L := toy) FernetManager_init new_key
                     [old_key]))
             sample_iv
             (fernet_encrypt (L := toy) ("o"%char, "k"%char) sample_entropy
                sample_data))
          (decrypt (L := toy)
             (snd (setup_key_rotation (L := toy) FernetManager_init new_key
                     [old_key])))
     = Ok sample_data.
Proof.
  exact (proj2 (proj2 (proj2 (proj2 (proj2
    (rotation_reencrypts (L := toy) (Laws := toy_laws) FernetManager_init
       new_key old_key ("n"%char, "k"%char) ("o"%char, "k"%char)
       sample_entropy sample_iv sample_data eq_refl eq_refl
       sample_entropy_ok eq_refl)))) eq_refl)).
Defined.

End ManagerProps.

(** ** [QuantumLock] *)

Module LockProps.
Import Lock.

Section Generic.
Context {L : FernetLib}.

Lemma verify_license_result (self : QuantumLock) fs key :
  fst (verify_license self fs key) = lock_key_loads fs (lock_path self).
Proof.
  unfold verify_license, lock_key_loads, Fernet.
  destruct (read_bytes fs (lock_path self)) as [data|e]; [|reflexivity].
  destruct (startswith LOCK_PREFIX data); [|reflexivity].
  cbn [negb andb].
  destruct (Fernet_new (str_drop (String.length LOCK_PREFIX) data));
    reflexivity.
Qed.

(** C2: the boolean that [verify_license] returns is the same for any two
    license strings; it is [true] exactly when the lock file can be read,
    starts with the prefix and holds a key that [Fernet] accepts, and then
    the lock is marked verified and keeps the parsed, unvalidated
    license. *)
Theorem verify_license_ignores_license_string (self : QuantumLock)
    (fs : filesystem) (key1 key2 : string) :
  fst (verify_license self fs key1) = fst (verify_license self fs key2)
  /\ fst (verify_license self fs key1) = lock_key_loads fs (lock_path self)
  /\ (forall lock_data f,
        read_bytes fs (lock_path self) = Ok lock_data ->
        startswith LOCK_PREFIX lock_data = true ->
        Fernet_new (str_drop (String.length LOCK_PREFIX) lock_data) = Some f ->
        verify_license self fs key1
        = (true, {| lock_path := lock_path self;
                    model_name := model_name self;
                    _fernet := Some f;
                    _is_verified := true;
                    _license_data := _parse_license key1 |})).
Proof.
  split; [now rewrite !verify_license_result|].
  split; [apply verify_license_result|].
  intros lock_data f Hread Hprefix Hkey.
  unfold verify_license, Fernet. rewrite Hread, Hprefix. cbn [negb].
  rewrite Hkey. reflexivity.
Qed.

End Generic.

Lemma verify_license_witness :
  verify_license (L := Toy.toy) sample_lock fs_lock "TEST-LICENSE-KEY"
  = (true, @mkQuantumLock Toy.toy "lock.bin" "test_model"
             (Some ("n"%char, "k"%char)) true
             (_parse_license "TEST-LICENSE-KEY")).
Proof.
  apply (proj2 (proj2 (verify_license_ignores_license_string (L := Toy.toy)
                         sample_lock fs_lock "TEST-LICENSE-KEY" "")))
    with (lock_data := (LOCK_PREFIX ++ Toy.new_key)%string);
    reflexivity.
Defined.

End LockProps.

(** ** [SelfDestructSystem] *)

Module SelfDestructProps.
Import SelfDestruct.

Section Generic.
Context {H : HashLib}.

Lemma record_critical (self : SelfDestructSystem) ts ty det path :
  _record_tamper self ts ty det SEVERITY_CRITICAL (Some path)
  = (Ok tt, with_event self (critical_event ts ty det path)).
Proof. reflexivity. Qed.

Lemma check_loop_skip (self : SelfDestructSystem) fs ts pre rest :
  forallb (intact fs) pre = true ->
  check_loop self fs ts (pre ++ rest)%list = check_loop self fs ts rest.
Proof.
  induction pre as [|[path expected] pre IH]; intros Hpre; [reflexivity|].
  cbn [forallb] in Hpre. apply andb_true_iff in Hpre as [Hitem Hpre].
  unfold intact in Hitem. cbn [fst snd] in Hitem.
  apply andb_true_iff in Hitem as [Hex Hhash].
  cbn [app check_loop]. rewrite Hex. cbn [negb].
  destruct (_calculate_hash fs path) as [current|e]; [|discriminate].
  rewrite Hhash. cbn [negb]. apply IH. exact Hpre.
Qed.

Lemma check_loop_intact (self : SelfDestructSystem) fs ts items :
  forallb (intact fs) items = true ->
  check_loop self fs ts items = (Ok true, self).
Proof.
  intros Hall. rewrite <- (app_nil_r items).
  now rewrite check_loop_skip.
Qed.

Lemma check_loop_true (self : SelfDestructSystem) fs ts items :
  fst (check_loop self fs ts items) = Ok true ->
  forallb (intact fs) items = true.
Proof.
  induction items as [|[path expected] items IH]; [reflexivity|].
  cbn [check_loop forallb]. unfold intact at 1. cbn [fst snd].
  destruct (path_exists fs path); cbn [negb andb].
  - destruct (_calculate_hash fs path) as [current|e]; [|discriminate].
    destruct (String.eqb current expected); cbn [negb andb].
    + exact IH.
    + rewrite record_critical. discriminate.
  - rewrite record_critical. discriminate.
Qed.

(** C8: a disarmed system answers [true] and records nothing.  An armed one
    walks the baseline in order: it answers [true], recording nothing,
    exactly when every baselined path exists with its baseline digest; at
    the first path that does not, a missing file appends one critical event
    "file_missing" for that path and the answer is [false], a digest that
    differs appends one critical event "file_modified" and the answer is
    [false]. *)
Theorem check_integrity_spec (self : SelfDestructSystem) (fs : filesystem)
    (ts : Z) :
  (_armed self = false -> check_integrity self fs ts = (Ok true, self))
  /\ (_armed self = true ->
      (fst (check_integrity self fs ts) = Ok true
       <-> forallb (intact fs) (_integrity_hashes self) = true)
      /\ (forallb (intact fs) (_integrity_hashes self) = true ->
          check_integrity self fs ts = (Ok true, self))
      /\ (forall pre path expected post,
            _integrity_hashes self = (pre ++ (path, expected) :: post)%list ->
            forallb (intact fs) pre = true ->
            (path_exists fs path = false ->
             check_integrity self fs ts
             = (Ok false,
                with_event self
                  (critical_event ts "file_missing"
                     ("Protected file missing: " ++ path) path)))
            /\ (forall current,
                  path_exists fs path = true ->
                  _calculate_hash fs path = Ok current ->
                  current <> expected ->
                  check_integrity self fs ts
                  = (Ok false,
                     with_event self
                       (critical_event ts "file_modified"
                          ("Protected file modified: " ++ path) path))))).
Proof.
  split.
  - intros Hoff. unfold check_integrity. now rewrite Hoff.
  - intros Hon. unfold check_integrity. rewrite Hon. cbn [negb].
    split; [split; [apply check_loop_true | intros Hall; now rewrite check_loop_intact]|].
    split; [apply check_loop_intact|].
    intros pre path expected post Hhashes Hpre. rewrite Hhashes.
    rewrite (check_loop_skip self fs ts pre _ Hpre). cbn [check_loop].
    split.
    + intros Hmissing. rewrite Hmissing. cbn [negb].
      rewrite record_critical. reflexivity.
    + intros current Hex Hcur Hdiff. rewrite Hex, Hcur. cbn [negb].
      apply String.eqb_neq in Hdiff. rewrite Hdiff. cbn [negb].
      rewrite record_critical. reflexivity.
Qed.

End Generic.

Example armed_system_state :
  armed_system
  = {| protected_paths := ["model.bin"];
       _integrity_hashes := [("model.bin", "weights")];
       _tamper_events := []; _callbacks := [];
       _armed := true; _triggered := false |}.
Proof. vm_compute. reflexivity. Qed.

(** The scenario of the specification: the baselined file is modified. *)
Lemma check_integrity_witness :
  check_integrity (H := toy_hash) armed_system fs_modified 1700000000
  = (Ok false,
     with_event armed_system
       (critical_event 1700000000 "file_modified"
          "Protected file modified: model.bin" "model.bin")).
Proof.
  apply (proj2 (proj2 (proj2 (proj2 (check_integrity_spec (H := toy_hash)
                                        armed_system fs_modified 1700000000)
                                      eq_refl))
                        [] "model.bin" "weights" [] eq_refl eq_refl))
    with (current := "weights!").
  - reflexivity.
  - reflexivity.
  - discriminate.
Defined.

End SelfDestructProps.

(** ** [LicenseChecker]: tables, usage, entry points *)

Module LicenseExtra.
Import License LicenseOps LicenseProps.

(** The state that a call of [check_license_key] leaves. *)
Lemma check_license_key_state self key now :
  snd (check_license_key self key now)
  = if is_valid (fst (check_license_key self key now))
    then set_license_info self (fst (check_license_key self key now))
    else self.
Proof.
  unfold check_license_key, check_license_key_try.
  destruct (length (str_split "-" key) <? 3)%nat; [reflexivity|].
  destruct (parse_year (str_split "-" key)) as [year|e]; [|reflexivity].
  cbn [bind].
  destruct (datetime_new year 12 31 23 59 59) as [exp|e]; [|reflexivity].
  cbn [bind].
  destruct (datetime_gt now exp); reflexivity.
Qed.

(** The shape of every [LicenseInfo] that [check_license_key] returns. *)
Lemma check_license_key_shape self key now :
  let info := fst (check_license_key self key now) in
  (is_valid info = true
   /\ error info = None
   /\ (exists exp, expires info = Some exp /\ datetime_gt now exp = false)
   /\ features info = _get_features (license_type info)
   /\ max_requests info = _get_request_limit (license_type info))
  \/ (is_valid info = false
      /\ (exists msg, error info = Some msg)
      /\ features info = []
      /\ max_requests info = 0).
Proof.
  cbv zeta. unfold check_license_key, check_license_key_try.
  destruct (length (str_split "-" key) <? 3)%nat.
  { right. repeat split; try reflexivity. eexists; reflexivity. }
  destruct (parse_year (str_split "-" key)) as [year|e].
  2:{ right. repeat split; try reflexivity. eexists; reflexivity. }
  cbn [bind].
  destruct (datetime_new year 12 31 23 59 59) as [exp|e].
  2:{ right. repeat split; try reflexivity. eexists; reflexivity. }
  cbn [bind].
  destruct (datetime_gt now exp) eqn:Hgt.
  - right. repeat split; try reflexivity. eexists; reflexivity.
  - left. repeat split; try reflexivity. exists exp. split; [reflexivity | exact Hgt].
Qed.

Lemma limits_lookup ty :
  limits !! ty
  = if String.eqb ty ENTERPRISE then Some (-1)
    else if String.eqb ty STANDARD then Some 100000
    else if String.eqb ty TRIAL then Some 1000
    else None.
Proof.
  unfold limits.
  destruct (String.eqb_spec ty ENTERPRISE) as [->|H1];
    [now rewrite lookup_insert_eq|].
  rewrite lookup_insert_ne by congruence.
  destruct (String.eqb_spec ty STANDARD) as [->|H2];
    [now rewrite lookup_insert_eq|].
  rewrite lookup_insert_ne by congruence.
  destruct (String.eqb_spec ty TRIAL) as [->|H3];
    [now rewrite lookup_insert_eq|].
  rewrite lookup_insert_ne by congruence.
  apply lookup_empty.
Qed.

Lemma features_has_api ty : In FEATURE_API (_get_features ty).
Proof.
  unfold _get_features.
  destruct (String.eqb ty TRIAL); [now left|].
  destruct (String.eqb ty STANDARD); [now left|].
  destruct (String.eqb ty ENTERPRISE); now left.
Qed.

(** X1: whatever the type string, the feature list holds "api"; it holds
    "unlimited" exactly for "enterprise", which is also exactly when the
    request limit is [-1]; the limit is never [0]; a type outside the three
    known ones gets the feature "api" alone and the limit 100. *)
Theorem features_quota_table (ty : string) :
  In FEATURE_API (_get_features ty)
  /\ (In FEATURE_UNLIMITED (_get_features ty) <-> ty = ENTERPRISE)
  /\ (_get_request_limit ty = -1 <-> ty = ENTERPRISE)
  /\ _get_request_limit ty <> 0
  /\ (ty <> TRIAL -> ty <> STANDARD -> ty <> ENTERPRISE ->
      _get_features ty = [FEATURE_API] /\ _get_request_limit ty = 100).
Proof.
  unfold _get_features, _get_request_limit. rewrite limits_lookup.
  destruct (String.eqb_spec ty TRIAL) as [->|Ht].
  { cbn. repeat split; try tauto; try discriminate; try lia.
    intros [H|[]]; discriminate. }
  destruct (String.eqb_spec ty STANDARD) as [->|Hs].
  { cbn. repeat split; try tauto; try discriminate; try lia.
    intros [H|[H|[H|[]]]]; discriminate. }
  destruct (String.eqb_spec ty ENTERPRISE) as [->|He].
  { cbn. repeat split; try tauto; try discriminate; try lia. }
  cbn. repeat split; try tauto; try discriminate; try lia.
  intros [H|[]]; discriminate.
Qed.

Lemma features_quota_table_witness :
  _get_features "license" = [FEATURE_API] /\ _get_request_limit "license" = 100.
Proof.
  apply (proj2 (proj2 (proj2 (proj2 (features_quota_table "license")))));
    discriminate.
Defined.

(** X2: a successful [check_license_key] does not touch the usage counter:
    right after it, [can_make_request] refuses exactly when the new quota
    is positive and the counter carried over has reached it; on a fresh
    checker it always answers [(true, "OK")]; the feature "api" is granted
    in every case. *)
Theorem accepted_license_gate (self : LicenseChecker) (key : string)
    (now : datetime) :
  is_valid (fst (check_license_key self key now)) = true ->
  let info := fst (check_license_key self key now) in
  let self' := snd (check_license_key self key now) in
  _request_count self' = _request_count self
  /\ can_make_request self' now
     = (if (0 <? max_requests info) && (max_requests info <=? _request_count self)
        then (false, "Request limit exceeded") else (true, "OK"))
  /\ (_request_count self = 0 -> can_make_request self' now = (true, "OK"))
  /\ has_feature self' FEATURE_API = true.
Proof.
  intros Hvalid info self'. subst info self'.
  rewrite check_license_key_state, Hvalid.
  destruct (check_license_key_shape self key now)
    as [(_ & _ & (exp & Hexp & Hgt) & Hfeat & _)|(Hinv & _)];
    [|congruence].
  assert (Hgate : can_make_request
            (set_license_info self (fst (check_license_key self key now))) now
          = (if (0 <? max_requests (fst (check_license_key self key now)))
                && (max_requests (fst (check_license_key self key now))
                    <=? _request_count self)
             then (false, "Request limit exceeded") else (true, "OK"))).
  { unfold can_make_request. cbn [_license_info set_license_info _request_count].
    rewrite Hvalid, Hexp, Hgt. reflexivity. }
  split; [reflexivity|].
  split; [exact Hgate|].
  split.
  - intros Hzero. rewrite Hgate, Hzero.
    destruct (Z.ltb_spec 0 (max_requests (fst (check_license_key self key now))));
      destruct (Z.leb_spec (max_requests (fst (check_license_key self key now))) 0);
      try reflexivity; lia.
  - unfold has_feature. cbn [_license_info set_license_info]. rewrite Hfeat.
    apply existsb_exists. exists FEATURE_API.
    split; [apply features_has_api | reflexivity].
Qed.

Lemma accepted_license_gate_witness :
  can_make_request
    (snd (check_license_key (LicenseChecker_init None) trial_key june_2025))
    june_2025
  = (true, "OK").
Proof.
  assert (Hvalid : is_valid (fst (check_license_key (LicenseChecker_init None)
                                    trial_key june_2025)) = true)
    by (vm_compute; reflexivity).
  apply (proj1 (proj2 (proj2 (accepted_license_gate (LicenseChecker_init None)
                                 trial_key june_2025 Hvalid)))).
  reflexivity.
Defined.

(** X3: a license stored by a successful check is refused by
    [can_make_request] with "License expired" at every moment after the end
    of its year, whatever the usage counter, although the stored
    [LicenseInfo] still has [is_valid = true]. *)
Theorem stored_license_expires (self : LicenseChecker) (key : string)
    (t0 t : datetime) (Y : Z) :
  parsed_expiry_year key = Some Y ->
  1 <= Y <= 9999 ->
  after_end_of_year t0 Y = false ->
  after_end_of_year t Y = true ->
  let self' := snd (check_license_key self key t0) in
  can_make_request self' t = (false, "License expired")
  /\ exists info, _license_info self' = Some info /\ is_valid info = true.
Proof.
  intros Hy HY Ht0 Ht self'. subst self'.
  rewrite (check_license_key_in_range self key t0 Y Hy HY).
  cbv zeta. rewrite datetime_gt_end_of_year, Ht0. cbn [snd].
  split.
  - unfold can_make_request.
    cbn [_license_info set_license_info is_valid expires negb].
    rewrite datetime_gt_end_of_year, Ht. reflexivity.
  - eexists. split; reflexivity.
Qed.

Lemma stored_license_expires_witness :
  can_make_request
    (snd (check_license_key (LicenseChecker_init None) trial_key june_2025))
    june_2026
  = (false, "License expired").
Proof.
  apply (proj1 (stored_license_expires (LicenseChecker_init None) trial_key
                  june_2025 june_2026 2025 eq_refl
                  (conj (proj1 (Z.leb_le 1 2025) eq_refl)
                        (proj1 (Z.leb_le 2025 9999) eq_refl))
                  eq_refl eq_refl)).
Defined.

(** X4: with a valid, unexpired license of quota [n > 0] and a counter
    starting at zero, [can_make_request] answers [(true, "OK")] after [k]
    recorded requests exactly when [k < n], and "Request limit exceeded"
    for every [k >= n]: [record_request] itself never refuses, the counter
    runs past the quota. *)
Theorem quota_admits_exactly (self : LicenseChecker) (info : LicenseInfo)
    (now : datetime) (k : nat) :
  _license_info self = Some info ->
  is_valid info = true ->
  unexpired info now ->
  _request_count self = 0 ->
  0 < max_requests info ->
  can_make_request (record_requests k self) now
  = (if Z.of_nat k <? max_requests info
     then (true, "OK") else (false, "Request limit exceeded"))
  /\ _request_count (record_requests k self) = Z.of_nat k.
Proof.
  intros Hinfo Hvalid Hunexp Hzero Hpos.
  assert (Hexp : match expires info with
                 | Some e => datetime_gt now e
                 | None => false
                 end = false).
  { unfold unexpired in Hunexp. destruct (expires info); [exact Hunexp | reflexivity]. }
  split; [|rewrite record_requests_count; lia].
  unfold can_make_request.
  rewrite record_requests_info, Hinfo, Hvalid, Hexp, record_requests_count, Hzero.
  cbn [negb].
  replace (0 <? max_requests info) with true by (symmetry; apply Z.ltb_lt; lia).
  cbn [andb].
  destruct (Z.leb_spec (max_requests info) (0 + Z.of_nat k));
    destruct (Z.ltb_spec (Z.of_nat k) (max_requests info));
    try reflexivity; lia.
Qed.

Lemma quota_admits_exactly_witness :
  can_make_request (record_requests 2 quota3_checker) june_2025 = (true, "OK")
  /\ can_make_request (record_requests 5 quota3_checker) june_2025
     = (false, "Request limit exceeded").
Proof.
  split.
  - apply (proj1 (quota_admits_exactly quota3_checker quota3_info june_2025 2
                    eq_refl eq_refl eq_refl eq_refl eq_refl)).
  - apply (proj1 (quota_admits_exactly quota3_checker quota3_info june_2025 5
                    eq_refl eq_refl eq_refl eq_refl eq_refl)).
Defined.

(** X5: [reset_usage] keeps the stored license and zeroes the counter: with
    a valid, unexpired license, [can_make_request] answers [(true, "OK")]
    right after it, however many requests had been recorded. *)
Theorem reset_usage_restores (self : LicenseChecker) (info : LicenseInfo)
    (now : datetime) (k : nat) :
  _license_info self = Some info ->
  is_valid info = true ->
  unexpired info now ->
  can_make_request (reset_usage (record_requests k self)) now = (true, "OK")
  /\ _license_info (reset_usage (record_requests k self)) = Some info.
Proof.
  intros Hinfo Hvalid Hunexp.
  assert (Hexp : match expires info with
                 | Some e => datetime_gt now e
                 | None => false
                 end = false).
  { unfold unexpired in Hunexp. destruct (expires info); [exact Hunexp | reflexivity]. }
  split.
  - unfold can_make_request. cbn [reset_usage _license_info _request_count].
    rewrite record_requests_info, Hinfo, Hvalid, Hexp. cbn [negb].
    destruct (Z.ltb_spec 0 (max_requests info));
      destruct (Z.leb_spec (max_requests info) 0); try reflexivity; lia.
  - cbn [reset_usage _license_info]. now rewrite record_requests_info.
Qed.

Lemma reset_usage_restores_witness :
  can_make_request (reset_usage (record_requests 5 quota3_checker)) june_2025
  = (true, "OK").
Proof.
  apply (proj1 (reset_usage_restores quota3_checker quota3_info june_2025 5
                  eq_refl eq_refl eq_refl)).
Defined.

Lemma get_usage_made self :
  get_usage self !! "requests_made" = Some (_request_count self).
Proof.
  unfold get_usage.
  rewrite lookup_insert_ne by discriminate.
  rewrite lookup_insert_ne by discriminate.
  apply lookup_insert_eq.
Qed.

Lemma get_usage_remaining self :
  get_usage self !! "requests_remaining"
  = Some match _license_info self with
         | Some info =>
             if 0 <? max_requests info
             then max_requests info - _request_count self
             else -1
         | None => -1
         end.
Proof. unfold get_usage. apply lookup_insert_eq. Qed.

(** X6: [get_usage] reports the counter as "requests_made"; for a positive
    quota "requests_remaining" is quota minus counter, which goes negative
    once requests are recorded past the quota, and for a valid, unexpired
    license [can_make_request] allows a request exactly when that number is
    positive; without a license, or with a quota that is not positive,
    "requests_remaining" is [-1]. *)
Theorem usage_matches_gate (self : LicenseChecker) :
  get_usage self !! "requests_made" = Some (_request_count self)
  /\ (forall info,
        _license_info self = Some info -> 0 < max_requests info ->
        get_usage self !! "requests_remaining"
        = Some (max_requests info - _request_count self)
        /\ forall now,
             is_valid info = true -> unexpired info now ->
             (fst (can_make_request self now) = true
              <-> 0 < max_requests info - _request_count self))
  /\ (_license_info self = None
      \/ (exists info, _license_info self = Some info /\ max_requests info <= 0) ->
      get_usage self !! "requests_remaining" = Some (-1)).
Proof.
  split; [apply get_usage_made|]. split.
  - intros info Hinfo Hpos. rewrite get_usage_remaining, Hinfo.
    replace (0 <? max_requests info) with true by (symmetry; apply Z.ltb_lt; lia).
    split; [reflexivity|].
    intros now Hvalid Hunexp. unfold can_make_request.
    rewrite Hinfo, Hvalid. cbn [negb].
    unfold unexpired in Hunexp.
    replace (match expires info with
             | Some e => datetime_gt now e
             | None => false
             end) with false
      by (destruct (expires info); [now rewrite Hunexp | reflexivity]).
    replace (0 <? max_requests info) with true by (symmetry; apply Z.ltb_lt; lia).
    cbn [andb].
    destruct (Z.leb_spec (max_requests info) (_request_count self));
      cbn [fst]; split; intros; try lia; try discriminate; reflexivity.
  - intros [Hnone|(info & Hinfo & Hle)]; rewrite get_usage_remaining.
    + now rewrite Hnone.
    + rewrite Hinfo.
      replace (0 <? max_requests info) with false
        by (symmetry; apply Z.ltb_ge; lia).
      reflexivity.
Qed.

Lemma usage_matches_gate_witness :
  get_usage (record_requests 5 quota3_checker) !! "requests_remaining"
  = Some (3 - 5).
Proof.
  apply (proj1 (proj1 (proj2 (usage_matches_gate (record_requests 5 quota3_checker)))
                  quota3_info eq_refl eq_refl)).
Defined.













Lemma utf8_decode_from_ascii data pos :
  str_all chr_ascii data = true -> utf8_decode_from pos data = Ok data.
Proof.
  revert pos. induction data as [|c data IH]; intros pos Hdata; [reflexivity|].
  cbn [str_all] in Hdata. apply andb_true_iff in Hdata as [Hc Hdata].
  cbn [utf8_decode_from]. unfold chr_ascii in Hc. rewrite Hc.
  now rewrite (IH _ Hdata).
Qed.

(** A file of octets below 0x80 is its own text. *)
Lemma utf8_decode_ascii data :
  str_all chr_ascii data = true -> utf8_decode data = Ok data.
Proof. apply utf8_decode_from_ascii. Qed.



(** The whole file is decoded: an invalid octet on a later line raises. *)
Example license_file_bad_octet :
  check_license_file file_checker fs_license_bad_octet june_2025
  = Raise (UnicodeDecodeError
             "'utf-8' codec can't decode byte 0xa0 in position 22: invalid start byte").
Proof. vm_compute. reflexivity. Qed.

(** A year written with more than 4300 digits is no year: [int] raises and
    the handler reports the key as invalid. *)
Example long_year_rejected :
  parsed_expiry_year long_year_key = None
  /\ is_valid (fst (check_license_key (LicenseChecker_init None) long_year_key
                      june_2025)) = false
  /\ snd (check_license_key (LicenseChecker_init None) long_year_key june_2025)
     = LicenseChecker_init None.
Proof. vm_compute. repeat split; reflexivity. Qed.

(** X8: the file and the environment entry points share the atomicity of
    [check_license_key]: the checker after the call is the checker before it
    unless the returned [LicenseInfo] is valid, in which case only the
    stored license is replaced, by the returned one; a variable that is
    unset or set to the empty string gives the error "Environment variable
    ... not set" and leaves the checker as it was. *)
Theorem entry_points_atomic (self : LicenseChecker) (env : environ)
    (env_var : string) (fs : filesystem) (now : datetime) :
  snd (check_env_license self env env_var now)
  = (if is_valid (fst (check_env_license self env env_var now))
     then set_license_info self (fst (check_env_license self env env_var now))
     else self)
  /\ (forall info self',
        check_license_file self fs now = Ok (info, self') ->
        self' = if is_valid info then set_license_info self info else self)
  /\ (env !! env_var = None \/ env !! env_var = Some EmptyString ->
      check_env_license self env env_var now
      = (LicenseInfo_failed ("Environment variable " ++ env_var ++ " not set"),
         self)).
Proof.
  split; [|split].
  - unfold check_env_license.
    destruct (env !! env_var) as [[|c k]|]; try reflexivity.
    apply check_license_key_state.
  - intros info self'. unfold check_license_file.
    destruct (license_path self) as [p|]; [|intros [= <- <-]; reflexivity].
    destruct (path_exists fs p); cbn [negb]; [|intros [= <- <-]; reflexivity].
    destruct (read_text fs p) as [text|e]; cbn [bind]; [|discriminate].
    destruct (length (str_split LF (str_strip text)) <? 1)%nat;
      [intros [= <- <-]; reflexivity|].
    intros [= Hr].
    pose proof (check_license_key_state self
                  (str_strip (nth 0%nat (str_split LF (str_strip text)) ""))
                  now) as Hst.
    rewrite Hr in Hst. exact Hst.
  - unfold check_env_license. now intros [-> | ->].
Qed.

Lemma entry_points_atomic_witness :
  check_env_license quota3_checker ∅ DEFAULT_ENV_VAR june_2025
  = (LicenseInfo_failed "Environment variable QUANTUM_FLOOR_LICENSE not set",
     quota3_checker).
Proof.
  apply (proj2 (proj2 (entry_points_atomic quota3_checker ∅ DEFAULT_ENV_VAR
                         ∅ june_2025))).
  left. reflexivity.
Defined.

(** X9: every [LicenseInfo] that [check_license_key] returns is of one of
    two shapes.  A valid one has no error, an expiry that [now] has not
    passed, and the features and the quota that the tables give for its
    type.  An invalid one carries an error message, no feature and a quota
    of zero.  So [is_valid] holds exactly when [error] is [None]. *)
Theorem license_info_wellformed (self : LicenseChecker) (key : string)
    (now : datetime) :
  let info := fst (check_license_key self key now) in
  (is_valid info = true <-> error info = None)
  /\ (is_valid info = true ->
      (exists exp, expires info = Some exp /\ datetime_gt now exp = false)
      /\ features info = _get_features (license_type info)
      /\ max_requests info = _get_request_limit (license_type info))
  /\ (is_valid info = false ->
      (exists msg, error info = Some msg)
      /\ features info = [] /\ max_requests info = 0).
Proof.
  cbv zeta.
  destruct (check_license_key_shape self key now)
    as [(Hv & He & Hexp & Hf & Hm)|(Hv & [msg He] & Hf & Hm)].
  - rewrite Hv, He. repeat split; auto; discriminate.
  - rewrite Hv, He. repeat split; eauto; discriminate.
Qed.

End LicenseExtra.

(** ** [FernetManager]: rotation sets and files *)

Module ManagerExtra.
Import Manager ManagerFiles Toy.

Lemma write_bytes_ok (fs : filesystem) p data :
  fs !! p <> Some Dir -> write_bytes fs p data = Ok (<[p := File data]> fs).
Proof.
  intros Hp. unfold write_bytes.
  destruct (fs !! p) as [[|d]|]; [congruence | reflexivity | reflexivity].
Qed.

Lemma read_bytes_insert (fs : filesystem) p data :
  read_bytes (<[p := File data]> fs) p = Ok data.
Proof. unfold read_bytes. now rewrite lookup_insert_eq. Qed.

Section Generic.
Context {L : FernetLib}.

Lemma Fernet_ok key f : Fernet_new key = Some f -> Fernet key = Ok f.
Proof. unfold Fernet. now intros ->. Qed.

Lemma Fernet_raise key :
  Fernet_new key = None ->
  Fernet key
  = Raise (ValueError "Fernet key must be 32 url-safe base64-encoded bytes.").
Proof. unfold Fernet. now intros ->. Qed.

Lemma Fernet_all_raise keys e :
  Fernet_all keys = Raise e -> Exists (fun k => Fernet_new k = None) keys.
Proof.
  induction keys as [|k keys IH]; [discriminate|].
  cbn [Fernet_all]. unfold Fernet at 1.
  destruct (Fernet_new k) as [f|] eqn:Hk; [|intros _; now constructor].
  cbn [bind]. destruct (Fernet_all keys) as [fs|e']; [discriminate|].
  cbn [bind]. intros He. apply Exists_cons_tl. now apply IH.
Qed.

Lemma Fernet_all_ok keys fs :
  Fernet_all keys = Ok fs -> Forall2 (fun k f => Fernet_new k = Some f) keys fs.
Proof.
  revert fs. induction keys as [|k keys IH]; intros fs.
  - intros [= <-]. constructor.
  - cbn [Fernet_all]. unfold Fernet at 1.
    destruct (Fernet_new k) as [f|] eqn:Hk; [|discriminate].
    cbn [bind]. destruct (Fernet_all keys) as [fs'|e']; [|discriminate].
    intros [= <-]. constructor; [exact Hk | now apply IH].
Qed.

(** X10: [setup_key_rotation] is all or nothing.  When [Fernet] accepts
    the new key and every retired key, the manager afterwards encrypts
    under the new key and rotates over the new key followed by the retired
    ones in their order; otherwise, which is exactly when one of the keys is
    malformed, the call raises and the manager is as it was. *)
Theorem setup_key_rotation_all_or_nothing (self : FernetManager)
    (new_key : bytes) (old_keys : list bytes) :
  (exists fnew folds,
     Fernet_new new_key = Some fnew
     /\ Forall2 (fun k f => Fernet_new k = Some f) old_keys folds
     /\ setup_key_rotation self new_key old_keys
        = (Ok tt, {| _fernet := Some fnew;
                     _multi_fernet := Some (fnew :: folds);
                     _key := Some new_key |}))
  \/ ((Fernet_new new_key = None
       \/ Exists (fun k => Fernet_new k = None) old_keys)
      /\ exists e, setup_key_rotation self new_key old_keys = (Raise e, self)).
Proof.
  unfold setup_key_rotation.
  destruct (Fernet_new new_key) as [fnew|] eqn:Hnew.
  - rewrite (Fernet_ok _ _ Hnew). cbn [bind].
    destruct (Fernet_all old_keys) as [folds|e] eqn:Holds; cbn [bind MultiFernet].
    + left. exists fnew, folds.
      split; [reflexivity|]. split; [now apply Fernet_all_ok | reflexivity].
    + right. split; [right; eapply Fernet_all_raise, Holds | eauto].
  - rewrite (Fernet_raise _ Hnew). cbn [bind].
    right. split; [now left | eauto].
Qed.

Lemma multi_decrypt_none (fs : list fernet) token :
  Forall (fun f => decrypt_data f token = None) fs ->
  multi_decrypt_data fs token = None.
Proof.
  induction 1 as [|f fs Hf _ IH]; [reflexivity|].
  cbn [multi_decrypt_data]. now rewrite Hf.
Qed.

Lemma multi_decrypt_first (pre post : list fernet) (fk : fernet) token res :
  Forall (fun f => decrypt_data f token = None) pre ->
  decrypt_data fk token = Some res ->
  multi_decrypt_data (pre ++ fk :: post) token = Some res.
Proof.
  intros Hpre Hk. induction Hpre as [|f pre Hf _ IH].
  - cbn [app multi_decrypt_data]. now rewrite Hk.
  - cbn [app multi_decrypt_data]. now rewrite Hf.
Qed.

Lemma multi_decrypt_some (fs : list fernet) (fk : fernet) token res :
  In fk fs -> decrypt_data fk token = Some res ->
  exists res', multi_decrypt_data fs token = Some res'.
Proof.
  intros Hin Hk. induction fs as [|f fs IH]; [destruct Hin|].
  cbn [multi_decrypt_data].
  destruct (decrypt_data f token) as [res'|] eqn:E; [now exists res'|].
  apply IH. destruct Hin as [->|Hin]; [congruence | exact Hin].
Qed.

Context {Laws : FernetLaws L}.

(** X11: after [setup_key_rotation(new_key, old_keys)] with any number of
    retired keys, [rotate_encrypt] accepts a token made under any key of
    the set.  When no key that comes before the token's key in the set
    authenticates the token, the result is the token of the same plaintext
    under [new_key], with the time stamp of the original and the fresh
    vector, and [decrypt] opens it.  A token that no key of the set
    authenticates makes [rotate_encrypt] and [decrypt] raise
    [InvalidToken]. *)
Theorem rotate_any_member (self : FernetManager) (new_key : bytes)
    (old_keys : list bytes) (fnew : fernet) (folds : list fernet)
    (r : entropy) (new_iv data : bytes) :
  Fernet_new new_key = Some fnew ->
  Fernet_all old_keys = Ok folds ->
  entropy_ok r ->
  iv_ok new_iv ->
  let rotated := snd (setup_key_rotation self new_key old_keys) in
  (forall fk,
     In fk (fnew :: folds) ->
     is_ok (rotate_encrypt rotated new_iv (fernet_encrypt fk r data)) = true)
  /\ (forall pre fk post,
        fnew :: folds = (pre ++ fk :: post)%list ->
        Forall (fun f => decrypt_data f (fernet_encrypt fk r data) = None) pre ->
        rotate_encrypt rotated new_iv (fernet_encrypt fk r data)
        = Ok (encrypt_from_parts fnew data (current_time r) new_iv)
        /\ bind (rotate_encrypt rotated new_iv (fernet_encrypt fk r data))
                (decrypt rotated)
           = Ok data)
  /\ (forall token,
        Forall (fun f => decrypt_data f token = None) (fnew :: folds) ->
        rotate_encrypt rotated new_iv token = Raise InvalidToken
        /\ decrypt rotated token = Raise InvalidToken).
Proof.
  intros Hnew Holds [Ht Hiv] Hniv rotated.
  assert (Hsetup : setup_key_rotation self new_key old_keys
                   = (Ok tt, {| _fernet := Some fnew;
                                _multi_fernet := Some (fnew :: folds);
                                _key := Some new_key |})).
  { unfold setup_key_rotation. rewrite (Fernet_ok _ _ Hnew). cbn [bind].
    rewrite Holds. reflexivity. }
  assert (Hopens : forall fk,
             decrypt_data fk (fernet_encrypt fk r data)
             = Some (current_time r, data)).
  { intros fk. unfold fernet_encrypt. now apply decrypt_encrypt. }
  subst rotated. rewrite Hsetup. cbn [snd].
  unfold rotate_encrypt, decrypt, multi_rotate.
  cbn [_multi_fernet _fernet].
  split; [|split].
  - intros fk Hin.
    destruct (multi_decrypt_some _ fk _ _ Hin (Hopens fk)) as [[t' d'] ->].
    reflexivity.
  - intros pre fk post Hset Hpre.
    assert (Hfirst : multi_decrypt_data (fnew :: folds) (fernet_encrypt fk r data)
                     = Some (current_time r, data)).
    { rewrite Hset. exact (multi_decrypt_first pre post fk _ _ Hpre (Hopens fk)). }
    rewrite Hfirst. split; [reflexivity|]. cbn [bind]. unfold fernet_decrypt.
    now rewrite decrypt_encrypt.
  - intros token Hnone. rewrite (multi_decrypt_none _ _ Hnone).
    split; [reflexivity|]. unfold fernet_decrypt.
    now rewrite (Forall_inv Hnone).
Qed.

(** X12: [encrypt_file] followed by [decrypt_to_memory] or [decrypt_file]
    under the same key gives back the content of the input file, also when
    the output path is the input path; [encrypt_file] changes no path but
    the output path. *)
Theorem encrypt_file_roundtrip (self : FernetManager) (f : fernet)
    (r : entropy) (fs : filesystem) (input_path output_path : string)
    (data : bytes) :
  _fernet self = Some f ->
  entropy_ok r ->
  read_bytes fs input_path = Ok data ->
  fs !! output_path <> Some Dir ->
  exists fs',
    encrypt_file self r fs input_path output_path = Ok fs'
    /\ decrypt_to_memory self fs' output_path = Ok data
    /\ (forall q, q <> output_path -> fs' !! q = fs !! q)
    /\ forall plain_path,
         fs' !! plain_path <> Some Dir ->
         exists fs'',
           decrypt_file self fs' output_path plain_path = Ok fs''
           /\ read_bytes fs'' plain_path = Ok data.
Proof.
  intros Hf Hr Hread Hout.
  exists (<[output_path := File (fernet_encrypt f r data)]> fs).
  assert (Hdec : decrypt self (fernet_encrypt f r data) = Ok data).
  { unfold decrypt. rewrite Hf. now apply ManagerProps.fernet_roundtrip. }
  split; [|split; [|split]].
  - unfold encrypt_file, encrypt. rewrite Hread, Hf. cbn [bind].
    now apply write_bytes_ok.
  - unfold decrypt_to_memory. rewrite read_bytes_insert. cbn [bind]. exact Hdec.
  - intros q Hq. now rewrite lookup_insert_ne.
  - intros plain_path Hplain.
    exists (<[plain_path := File data]>
              (<[output_path := File (fernet_encrypt f r data)]> fs)).
    split; [|apply read_bytes_insert].
    unfold decrypt_file. rewrite read_bytes_insert. cbn [bind].
    rewrite Hdec. cbn [bind]. now apply write_bytes_ok.
Qed.

(** X13: the order of failures of the file operations.  A missing input
    file raises [FileNotFoundError] from all three, with or without a key;
    with the input readable, a manager without key raises
    [ValueError("No key loaded")]; with a key, a file whose content the key
    does not authenticate raises [InvalidToken] from [decrypt_file] and
    [decrypt_to_memory]. *)
Theorem file_operations_errors (self : FernetManager) (r : entropy)
    (fs : filesystem) (input_path output_path : string) :
  (fs !! input_path = None ->
   encrypt_file self r fs input_path output_path
   = Raise (FileNotFoundError input_path)
   /\ decrypt_file self fs input_path output_path
      = Raise (FileNotFoundError input_path)
   /\ decrypt_to_memory self fs input_path
      = Raise (FileNotFoundError input_path))
  /\ (forall data,
        read_bytes fs input_path = Ok data -> _fernet self = None ->
        encrypt_file self r fs input_path output_path
        = Raise (ValueError "No key loaded")
        /\ decrypt_file self fs input_path output_path
           = Raise (ValueError "No key loaded")
        /\ decrypt_to_memory self fs input_path
           = Raise (ValueError "No key loaded"))
  /\ (forall f token,
        _fernet self = Some f ->
        read_bytes fs input_path = Ok token ->
        decrypt_data f token = None ->
        decrypt_file self fs input_path output_path = Raise InvalidToken
        /\ decrypt_to_memory self fs input_path = Raise InvalidToken).
Proof.
  split; [|split].
  - intros Hnone.
    unfold encrypt_file, decrypt_file, decrypt_to_memory, read_bytes.
    rewrite Hnone. repeat split; reflexivity.
  - intros data Hread Hnokey.
    unfold encrypt_file, decrypt_file, decrypt_to_memory, encrypt, decrypt.
    rewrite Hread, Hnokey. repeat split; reflexivity.
  - intros f token Hf Hread Hreject.
    unfold decrypt_file, decrypt_to_memory, decrypt.
    rewrite Hread, Hf. cbn [bind]. unfold fernet_decrypt. rewrite Hreject.
    split; reflexivity.
Qed.

(** X14: the module-level pair.  [encrypt_model] with a key that [Fernet]
    accepts returns that key, and [decrypt_model_to_memory] with it gives
    back the content of the model file; without a key argument the drawn
    key is returned and opens the file as well.  With any key that [Fernet]
    accepts, [decrypt_model_to_memory] is the decryption of the written
    token under that key, and a key that [Fernet] rejects raises
    [ValueError] before the file is read. *)
Theorem model_roundtrip (fs : filesystem) (r : entropy) (fresh key : bytes)
    (f : fernet) (model_path output_path : string) (data : bytes) :
  Fernet_new key = Some f ->
  entropy_ok r ->
  read_bytes fs model_path = Ok data ->
  fs !! output_path <> Some Dir ->
  exists fs',
    encrypt_model fs r fresh model_path output_path (Some key) = Ok (key, fs')
    /\ encrypt_model fs r key model_path output_path None = Ok (key, fs')
    /\ decrypt_model_to_memory fs' output_path key = Ok data
    /\ (forall key' f',
          Fernet_new key' = Some f' ->
          decrypt_model_to_memory fs' output_path key'
          = fernet_decrypt f' (fernet_encrypt f r data))
    /\ (forall key' any_fs any_path,
          Fernet_new key' = None ->
          decrypt_model_to_memory any_fs any_path key'
          = Raise (ValueError
                     "Fernet key must be 32 url-safe base64-encoded bytes.")).
Proof.
  intros Hkey Hr Hread Hout.
  exists (<[output_path := File (fernet_encrypt f r data)]> fs).
  assert (Henc : encrypt_file
                   {| _fernet := Some f; _multi_fernet := None; _key := Some key |}
                   r fs model_path output_path
                 = Ok (<[output_path := File (fernet_encrypt f r data)]> fs)).
  { unfold encrypt_file, encrypt. rewrite Hread. cbn [bind _fernet].
    now apply write_bytes_ok. }
  assert (Hany : forall key' f',
             Fernet_new key' = Some f' ->
             decrypt_model_to_memory
               (<[output_path := File (fernet_encrypt f r data)]> fs)
               output_path key'
             = fernet_decrypt f' (fernet_encrypt f r data)).
  { intros key' f' Hkey'.
    unfold decrypt_model_to_memory, load_key. rewrite (Fernet_ok _ _ Hkey').
    cbn [bind]. unfold decrypt_to_memory. rewrite read_bytes_insert.
    cbn [bind]. unfold decrypt. cbn [_fernet]. reflexivity. }
  split; [|split; [|split; [|split]]].
  - unfold encrypt_model, load_key. rewrite (Fernet_ok _ _ Hkey).
    cbn [bind]. unfold FernetManager_init. cbn [_multi_fernet].
    rewrite Henc. reflexivity.
  - unfold encrypt_model, generate_key, load_key. rewrite (Fernet_ok _ _ Hkey).
    cbn [bind]. unfold FernetManager_init. cbn [_multi_fernet].
    rewrite Henc. reflexivity.
  - rewrite (Hany key f Hkey). now apply ManagerProps.fernet_roundtrip.
  - exact Hany.
  - intros key' any_fs any_path Hkey'.
    unfold decrypt_model_to_memory, load_key. rewrite (Fernet_raise _ Hkey').
    reflexivity.
Qed.

End Generic.

Section KeyFiles.
Context {L : FernetLib}.

(** X15: a key saved by [save_key_to_file] and loaded by
    [load_key_from_file] into a new manager gives the cipher of the
    original; no other path of the file system changes.  Without a key,
    [save_key_to_file] raises [ValueError("No key loaded")]. *)
Theorem key_file_roundtrip (self : FernetManager) (key : bytes) (f : fernet)
    (fs : filesystem) (key_path : string) :
  Fernet_new key = Some f ->
  fs !! key_path <> Some Dir ->
  save_key_to_file FernetManager_init fs key_path
  = Raise (ValueError "No key loaded")
  /\ exists fs',
       save_key_to_file (snd (load_key self key)) fs key_path = Ok fs'
       /\ load_key_from_file FernetManager_init fs' key_path
          = (Ok tt, {| _fernet := Some f; _multi_fernet := None;
                       _key := Some key |})
       /\ forall q, q <> key_path -> fs' !! q = fs !! q.
Proof.
  intros Hkey Hpath. split; [reflexivity|].
  exists (<[key_path := File key]> fs).
  split; [|split].
  - unfold save_key_to_file, load_key. rewrite (Fernet_ok _ _ Hkey).
    cbn [snd _key]. now apply write_bytes_ok.
  - unfold load_key_from_file. rewrite read_bytes_insert.
    unfold load_key. rewrite (Fernet_ok _ _ Hkey). reflexivity.
  - intros q Hq. now rewrite lookup_insert_ne.
Qed.

(** X16: [load_key] with a key that [Fernet] rejects raises, but has
    already replaced the stored key octets: the manager goes on encrypting
    under its previous cipher, while [save_key_to_file] writes the rejected
    key, which [load_key_from_file] then fails to load. *)
Theorem failed_load_key_desynchronises (self : FernetManager) (bad : bytes)
    (f : fernet) (fs : filesystem) (key_path : string) :
  Fernet_new bad = None ->
  _fernet self = Some f ->
  fs !! key_path <> Some Dir ->
  is_ok (fst (load_key self bad)) = false
  /\ (forall r data,
        encrypt (snd (load_key self bad)) r data = Ok (fernet_encrypt f r data))
  /\ exists fs',
       save_key_to_file (snd (load_key self bad)) fs key_path = Ok fs'
       /\ read_bytes fs' key_path = Ok bad
       /\ is_ok (fst (load_key_from_file FernetManager_init fs' key_path))
          = false.
Proof.
  intros Hbad Hf Hpath.
  assert (Hload : forall m, load_key m bad
                  = (Raise (ValueError
                       "Fernet key must be 32 url-safe base64-encoded bytes."),
                     {| _fernet := _fernet m; _multi_fernet := _multi_fernet m;
                        _key := Some bad |})).
  { intros m. unfold load_key. now rewrite (Fernet_raise _ Hbad). }
  rewrite Hload. cbn [fst snd]. split; [reflexivity|]. split.
  - intros r data. unfold encrypt. cbn [_fernet]. now rewrite Hf.
  - exists (<[key_path := File bad]> fs). split; [|split].
    + unfold save_key_to_file. cbn [_key]. now apply write_bytes_ok.
    + apply read_bytes_insert.
    + unfold load_key_from_file. rewrite read_bytes_insert, Hload. reflexivity.
Qed.

End KeyFiles.

Lemma rotate_any_member_witness :
  rotate_encrypt (L := toy)
    (snd (setup_key_rotation (L := toy) FernetManager_init new_key
            [old_key; third_key]))
    sample_iv
    (fernet_encrypt (L := toy) ("p"%char, "k"%char) sample_entropy sample_data)
  = Ok (toy_encrypt ("n"%char, "k"%char) sample_data 1700000000 sample_iv).
Proof.
  assert (Hpre : Forall
                   (fun f : @fernet toy =>
                      decrypt_data f
                        (fernet_encrypt (L := toy) ("p"%char, "k"%char)
                           sample_entropy sample_data) = None)
                   [("n"%char, "k"%char); ("o"%char, "k"%char)])
    by (repeat constructor).
  exact (proj1 (proj1 (proj2 (rotate_any_member (L := toy)
                                (Laws := ManagerProps.toy_laws)
                                FernetManager_init new_key [old_key; third_key]
                                ("n"%char, "k"%char)
                                [("o"%char, "k"%char); ("p"%char, "k"%char)]
                                sample_entropy sample_iv
                                sample_data eq_refl eq_refl
                                ManagerProps.sample_entropy_ok eq_refl))
                 [("n"%char, "k"%char); ("o"%char, "k"%char)]
                 ("p"%char, "k"%char) [] eq_refl Hpre)).
Defined.

Lemma encrypt_file_roundtrip_witness :
  exists fs',
    encrypt_file (L := toy) loaded_manager sample_entropy fs_model
      "model.bin" "model.enc" = Ok fs'
    /\ decrypt_to_memory (L := toy) loaded_manager fs' "model.enc"
       = Ok sample_data.
Proof.
  assert (Hout : fs_model !! "model.enc" <> Some Dir)
    by (intros Hd; vm_compute in Hd; discriminate).
  destruct (encrypt_file_roundtrip (L := toy) (Laws := ManagerProps.toy_laws)
              loaded_manager ("n"%char, "k"%char) sample_entropy fs_model
              "model.bin" "model.enc" sample_data eq_refl
              ManagerProps.sample_entropy_ok eq_refl Hout)
    as (fs' & Henc & Hdec & _).
  exists fs'. split; assumption.
Defined.

Lemma file_operations_errors_witness :
  decrypt_to_memory (L := toy) loaded_manager ∅ "missing.enc"
  = Raise (FileNotFoundError "missing.enc").
Proof.
  exact (proj2 (proj2 (proj1 (file_operations_errors (L := toy) loaded_manager
                                sample_entropy ∅ "missing.enc" "out.bin")
                             eq_refl))).
Defined.

Lemma model_roundtrip_witness :
  exists fs',
    encrypt_model (L := toy) fs_model sample_entropy third_key
      "model.bin" "model.enc" (Some new_key) = Ok (new_key, fs')
    /\ decrypt_model_to_memory (L := toy) fs' "model.enc" new_key
       = Ok sample_data.
Proof.
  assert (Hout : fs_model !! "model.enc" <> Some Dir)
    by (intros Hd; vm_compute in Hd; discriminate).
  destruct (model_roundtrip (L := toy) (Laws := ManagerProps.toy_laws)
              fs_model sample_entropy third_key new_key ("n"%char, "k"%char)
              "model.bin" "model.enc" sample_data eq_refl
              ManagerProps.sample_entropy_ok eq_refl Hout)
    as (fs' & Henc & _ & Hdec & _).
  exists fs'. split; assumption.
Defined.

Lemma key_file_roundtrip_witness :
  exists fs',
    save_key_to_file (L := toy) loaded_manager ∅ "key.bin" = Ok fs'
    /\ load_key_from_file (L := toy) FernetManager_init fs' "key.bin"
       = (Ok tt, loaded_manager).
Proof.
  assert (Hout : (∅ : filesystem) !! "key.bin" <> Some Dir)
    by (intros Hd; vm_compute in Hd; discriminate).
  destruct (proj2 (key_file_roundtrip (L := toy) FernetManager_init new_key
                     ("n"%char, "k"%char) ∅ "key.bin" eq_refl Hout))
    as (fs' & Hsave & Hload & _).
  exists fs'. split; assumption.
Defined.

Lemma failed_load_key_desynchronises_witness :
  is_ok (fst (load_key (L := toy) loaded_manager bad_key)) = false
  /\ forall r data,
       encrypt (L := toy) (snd (load_key (L := toy) loaded_manager bad_key))
         r data
       = Ok (fernet_encrypt (L := toy) ("n"%char, "k"%char) r data).
Proof.
  assert (Hout : (∅ : filesystem) !! "key.bin" <> Some Dir)
    by (intros Hd; vm_compute in Hd; discriminate).
  destruct (failed_load_key_desynchronises (L := toy) loaded_manager bad_key
              ("n"%char, "k"%char) ∅ "key.bin" eq_refl eq_refl Hout)
    as (Hraise & Henc & _).
  split; assumption.
Defined.

End ManagerExtra.

(** ** Hashing in chunks *)

Module HashExtra.
Import SelfDestruct Monitor LockOps.

Lemma substring_drop n s : (substring 0 n s ++ str_drop n s)%string = s.
Proof.
  revert s. induction n as [|n IH]; intros s.
  - destruct s; reflexivity.
  - destruct s as [|c s]; [reflexivity|].
    cbn [substring str_drop]. rewrite ManagerProps.str_app_cons.
    now rewrite IH.
Qed.

Lemma str_drop_length n s :
  String.length (str_drop n s) = (String.length s - n)%nat.
Proof.
  revert s. induction n as [|n IH]; intros s.
  - cbn [str_drop]. lia.
  - destruct s as [|c s]; [reflexivity|]. cbn [str_drop String.length].
    rewrite IH. lia.
Qed.

Section Generic.
Context {H : HashLib} {HL : HashLaws}.

Lemma fold_update_chunks fuel size data st :
  (0 < size)%nat ->
  (String.length data <= fuel)%nat ->
  fold_left sha256_update (read_chunks fuel size data) st
  = sha256_update st data.
Proof.
  intros Hsize. revert data st.
  induction fuel as [|fuel IH]; intros data st Hlen.
  - destruct data; [|cbn in Hlen; lia]. cbn. now rewrite update_empty.
  - destruct data as [|c data]; [cbn; now rewrite update_empty|].
    cbn [read_chunks fold_left]. rewrite IH.
    + rewrite update_app. now rewrite substring_drop.
    + rewrite str_drop_length. cbn [String.length] in *. lia.
Qed.

(** X17: under the streaming contract of [hashlib], the digest that
    [SelfDestructSystem._calculate_hash] computes in chunks of 8192 octets
    is the digest of the whole content, so [QuantumLock.verify_integrity]
    answers [true] exactly for the digest that the monitor computes, prints
    one tamper alert when it answers [false], and raises where the monitor's
    hashing raises. *)
Theorem chunked_hash_is_whole_hash {L : FernetLib} (self : Lock.QuantumLock)
    (fs : filesystem) (path expected : string) :
  _calculate_hash fs path
  = bind (read_bytes fs path) (fun data => Ok (sha256_hex data))
  /\ verify_integrity self fs path expected
     = match _calculate_hash fs path with
       | Ok current =>
           if String.eqb current expected then (Ok true, [])
           else (Ok false, [tamper_alert self])
       | Raise e => (Raise e, [])
       end.
Proof.
  assert (Hhash : _calculate_hash fs path
                  = bind (read_bytes fs path) (fun data => Ok (sha256_hex data))).
  { unfold _calculate_hash, sha256_hex.
    destruct (read_bytes fs path) as [data|e]; [|reflexivity].
    cbn [bind]. rewrite fold_update_chunks; [reflexivity | | lia].
    unfold CHUNK_SIZE. lia. }
  split; [exact Hhash|].
  rewrite Hhash. unfold verify_integrity.
  destruct (read_bytes fs path) as [data|e]; [|reflexivity].
  cbn [bind]. now destruct (String.eqb (sha256_hex data) expected).
Qed.

End Generic.

Lemma toy_hash_laws : HashLaws (H := toy_hash).
Proof.
  split.
  - intros st a b. cbn. apply ManagerProps.str_app_assoc.
  - intros st. cbn. induction st as [|c st IH]; [reflexivity|].
    rewrite ManagerProps.str_app_cons. now rewrite IH.
Qed.

End HashExtra.

(** ** [QuantumLock]: life cycle, failures, registry *)

Module LockExtra.
Import Lock LockOps.

Lemma chunked_hash_is_whole_hash_witness :
  verify_integrity (L := Toy.toy) (H := toy_hash) sample_lock
    SelfDestruct.fs_baseline "model.bin" "weights" = (Ok true, [])
  /\ verify_integrity (L := Toy.toy) (H := toy_hash) sample_lock
       SelfDestruct.fs_modified "model.bin" "weights"
     = (Ok false, ["[QUANTUM LOCK] Tampering attempt detected for test_model"]).
Proof.
  split.
  - rewrite (proj2 (HashExtra.chunked_hash_is_whole_hash (H := toy_hash)
                      (HL := HashExtra.toy_hash_laws) (L := Toy.toy)
                      sample_lock SelfDestruct.fs_baseline "model.bin"
                      "weights")).
    reflexivity.
  - rewrite (proj2 (HashExtra.chunked_hash_is_whole_hash (H := toy_hash)
                      (HL := HashExtra.toy_hash_laws) (L := Toy.toy)
                      sample_lock SelfDestruct.fs_modified "model.bin"
                      "weights")).
    reflexivity.
Defined.

Section Generic.
Context {L : FernetLib}.

Lemma startswith_app p s : startswith p (p ++ s) = true.
Proof.
  unfold startswith. induction p as [|a p IH]; [now destruct s|].
  rewrite ManagerProps.str_app_cons. cbn [String.prefix].
  destruct (ascii_dec a a); [exact IH | congruence].
Qed.

Lemma parse_license_no_expires key : _parse_license key !! "expires" = None.
Proof.
  unfold _parse_license.
  rewrite !lookup_insert_ne by discriminate. apply lookup_empty.
Qed.

Lemma lock_inv_init fs path name l :
  QuantumLock_init fs path name = Ok l -> lock_inv path name l.
Proof.
  unfold QuantumLock_init.
  destruct (_verify_lock_file fs path); [|discriminate].
  cbn [bind]. intros [= <-]. now repeat split.
Qed.

Lemma lock_inv_step path name l o :
  lock_inv path name l -> lock_inv path name (run_lock_op l o).
Proof.
  intros (Hp & Hn & Hv & He). destruct o as [fs key|].
  - cbn [run_lock_op]. unfold verify_license.
    destruct (read_bytes fs (lock_path l)) as [data|e].
    + destruct (startswith LOCK_PREFIX data); cbn [negb].
      * destruct (Fernet _) as [f|e]; cbn [snd].
        -- repeat split; try assumption; apply parse_license_no_expires.
        -- now repeat split.
      * cbn [snd]. now repeat split.
    + cbn [snd]. now repeat split.
  - cbn [run_lock_op]. now repeat split.
Qed.

Lemma lock_inv_ops path name l ops :
  lock_inv path name l -> lock_inv path name (run_lock_ops l ops).
Proof.
  revert l. induction ops as [|o ops IH]; intros l Hinv; [exact Hinv|].
  cbn. apply IH. now apply lock_inv_step.
Qed.

(** X18: for a lock built by [QuantumLock(path, name)] and taken through
    any sequence of [verify_license] (each against any file system and
    license string) and [close] calls, [get_status] never reports an expiry,
    reports [is_locked] as the negation of [is_valid], and keeps the model
    name; [encrypt] succeeds exactly when the status is valid, and when it
    is not, [decrypt] raises [RuntimeError] without a tamper alert. *)
Theorem lock_status_invariant (fs0 : filesystem) (path name : string)
    (lock0 : QuantumLock) (ops : list lock_op) (r : entropy) (data : bytes) :
  QuantumLock_init fs0 path name = Ok lock0 ->
  let l := run_lock_ops lock0 ops in
  expires (get_status l) = None
  /\ is_locked (get_status l) = negb (is_valid (get_status l))
  /\ LockOps.model_name (get_status l) = name
  /\ lock_path l = path
  /\ is_ok (encrypt l r data) = is_valid (get_status l)
  /\ (is_valid (get_status l) = false ->
      forall token,
        decrypt l token
        = (Raise (RuntimeError "Lock not verified. Call verify_license first."),
           [])).
Proof.
  intros Hinit l.
  pose proof (lock_inv_ops path name lock0 ops (lock_inv_init _ _ _ _ Hinit))
    as (Hp & Hn & Hv & He).
  fold l in Hp, Hn, Hv, He.
  unfold get_status, encrypt, decrypt.
  cbn [expires is_locked is_valid LockOps.model_name].
  repeat split; try assumption.
  - rewrite Hv. now destruct (_fernet l).
  - intros Hoff token. now rewrite Hoff.
Qed.

(** X19: a verification that fails leaves the lock in one of two ways.
    When the lock file is there but does not start with the prefix, the lock
    is exactly as before, so a lock verified earlier keeps its cipher.  When
    the file cannot be read, or [Fernet] rejects the embedded key, the lock
    loses its cipher: [encrypt] and [decrypt] raise [RuntimeError] until a
    verification succeeds; the license data stay as they were. *)
Theorem reverification_failure_modes (self : QuantumLock) (fs : filesystem)
    (license_key : string) :
  (forall lock_data,
     read_bytes fs (lock_path self) = Ok lock_data ->
     startswith LOCK_PREFIX lock_data = false ->
     verify_license self fs license_key = (false, self))
  /\ (is_ok (read_bytes fs (lock_path self)) = false
      \/ (exists lock_data,
            read_bytes fs (lock_path self) = Ok lock_data
            /\ startswith LOCK_PREFIX lock_data = true
            /\ Fernet_new (str_drop (String.length LOCK_PREFIX) lock_data)
               = None) ->
      let self' := snd (verify_license self fs license_key) in
      fst (verify_license self fs license_key) = false
      /\ _license_data self' = _license_data self
      /\ (forall r data,
            encrypt self' r data
            = Raise (RuntimeError
                       "Lock not initialized. Call verify_license first."))
      /\ (forall token,
            decrypt self' token
            = (Raise (RuntimeError
                        "Lock not verified. Call verify_license first."), []))).
Proof.
  split.
  - intros lock_data Hread Hprefix. unfold verify_license.
    now rewrite Hread, Hprefix.
  - intros Hfail.
    assert (Hres : verify_license self fs license_key
                   = (false, verify_failed self)).
    { unfold verify_license.
      destruct Hfail as [Hread|(lock_data & Hread & Hprefix & Hkey)].
      - destruct (read_bytes fs (lock_path self)); [discriminate | reflexivity].
      - rewrite Hread, Hprefix. cbn [negb]. unfold Fernet. now rewrite Hkey. }
    cbv zeta. rewrite Hres. cbn [fst snd]. repeat split.
Qed.

Context {Laws : FernetLaws L}.

(** X20: on a verified lock, [decrypt] returns the plaintext of a token
    made under the lock's key and prints nothing.  On any token, it prints
    the alert line, which names the model, exactly when the lock's cipher
    does not authenticate the token, and then raises [InvalidToken]; a token
    that the cipher authenticates is opened without a line. *)
Theorem lock_decrypt_alert (self : QuantumLock) (f : fernet) (r : entropy)
    (data : bytes) :
  _is_verified self = true ->
  _fernet self = Some f ->
  entropy_ok r ->
  decrypt self (fernet_encrypt f r data) = (Ok data, [])
  /\ (forall token,
        decrypt_data f token = None ->
        decrypt self token
        = (Raise InvalidToken,
           ["[QUANTUM LOCK] Tampering attempt detected for "
            ++ Lock.model_name self]))
  /\ (forall token t d,
        decrypt_data f token = Some (t, d) ->
        decrypt self token = (Ok d, [])).
Proof.
  intros Hv Hf Hr. unfold decrypt. rewrite Hv, Hf. split; [|split].
  - now rewrite ManagerProps.fernet_roundtrip.
  - intros token Hreject. unfold fernet_decrypt. now rewrite Hreject.
  - intros token t d Hopens. unfold fernet_decrypt. now rewrite Hopens.
Qed.

(** X21: the flow of the encryption tool.  [generate_lock] writes a lock
    file from which [QuantumLock(path, name)] can be built; [verify_license]
    on it succeeds for any license string; the verified lock then decrypts
    what a [FernetManager] loaded with the returned key encrypted, and what
    the lock itself encrypted. *)
Theorem generated_lock_opens_model (fs : filesystem) (path name : string)
    (fresh : bytes) (f : fernet) (license_key : string) (r : entropy)
    (data : bytes) :
  Fernet_new fresh = Some f ->
  fs !! path <> Some Dir ->
  entropy_ok r ->
  exists fs' lock0,
    generate_lock fs path fresh = Ok (fresh, fs')
    /\ QuantumLock_init fs' path name = Ok lock0
    /\ fst (verify_license lock0 fs' license_key) = true
    /\ bind (Manager.encrypt
               (snd (Manager.load_key Manager.FernetManager_init fresh)) r data)
            (fun token =>
               fst (decrypt (snd (verify_license lock0 fs' license_key)) token))
       = Ok data
    /\ bind (encrypt (snd (verify_license lock0 fs' license_key)) r data)
            (fun token =>
               fst (decrypt (snd (verify_license lock0 fs' license_key)) token))
       = Ok data.
Proof.
  intros Hkey Hpath Hr.
  exists (<[path := File (LOCK_PREFIX ++ fresh)]> fs).
  exists {| lock_path := path; Lock.model_name := name; _fernet := None;
            _is_verified := false; _license_data := ∅ |}.
  assert (Hread : read_bytes (<[path := File (LOCK_PREFIX ++ fresh)]> fs) path
                  = Ok (LOCK_PREFIX ++ fresh)%string)
    by apply ManagerExtra.read_bytes_insert.
  assert (Hprefix : startswith LOCK_PREFIX (LOCK_PREFIX ++ fresh) = true)
    by apply startswith_app.
  assert (Hdrop : str_drop (String.length LOCK_PREFIX) (LOCK_PREFIX ++ fresh)
                  = fresh)
    by apply ManagerProps.str_drop_app.
  assert (Hverify : verify_license
                      {| lock_path := path; Lock.model_name := name;
                         _fernet := None; _is_verified := false;
                         _license_data := ∅ |}
                      (<[path := File (LOCK_PREFIX ++ fresh)]> fs) license_key
                    = (true, {| lock_path := path; Lock.model_name := name;
                                _fernet := Some f; _is_verified := true;
                                _license_data := _parse_license license_key |})).
  { unfold verify_license. cbn [lock_path]. rewrite Hread, Hprefix.
    cbn [negb]. rewrite Hdrop. unfold Fernet. rewrite Hkey. reflexivity. }
  split; [|split; [|split; [|split]]].
  - unfold generate_lock. rewrite (ManagerExtra.write_bytes_ok _ _ _ Hpath).
    reflexivity.
  - unfold QuantumLock_init, _verify_lock_file, path_exists.
    rewrite lookup_insert_eq. cbn [negb]. rewrite Hread. cbn [bind].
    rewrite Hprefix. reflexivity.
  - now rewrite Hverify.
  - rewrite Hverify. cbn [snd]. unfold Manager.load_key.
    rewrite (ManagerExtra.Fernet_ok _ _ Hkey). cbn [snd].
    unfold Manager.encrypt. cbn [Manager._fernet bind].
    unfold decrypt. cbn [_is_verified _fernet].
    now rewrite ManagerProps.fernet_roundtrip.
  - rewrite Hverify. cbn [snd]. unfold encrypt. cbn [_fernet bind].
    unfold decrypt. cbn [_is_verified _fernet].
    now rewrite ManagerProps.fernet_roundtrip.
Qed.

(** X22: [register] builds the lock before it touches the registry.  When
    the lock file is missing it raises [FileNotFoundError], when the file
    lacks the prefix it raises [ValueError("Invalid lock file format")], and
    the registry is unchanged; otherwise the name is bound to a new,
    unverified lock, whatever was registered under that name before, and no
    other name changes. *)
Theorem registry_register (self : QuantumLockManager) (fs : filesystem)
    (name path : string) :
  (fs !! path = None ->
   register self fs name path = (Raise (FileNotFoundError path), self))
  /\ (forall lock_data,
        fs !! path = Some (File lock_data) ->
        startswith LOCK_PREFIX lock_data = false ->
        register self fs name path
        = (Raise (ValueError "Invalid lock file format"), self))
  /\ (forall lock_data,
        fs !! path = Some (File lock_data) ->
        startswith LOCK_PREFIX lock_data = true ->
        fst (register self fs name path) = Ok tt
        /\ get (snd (register self fs name path)) name
           = Some {| lock_path := path; Lock.model_name := name;
                     _fernet := None; _is_verified := false;
                     _license_data := ∅ |}
        /\ forall other, other <> name ->
             get (snd (register self fs name path)) other = get self other).
Proof.
  unfold register, QuantumLock_init, _verify_lock_file, path_exists, read_bytes.
  split; [|split].
  - intros Hnone. now rewrite Hnone.
  - intros lock_data Hfile Hprefix. rewrite Hfile. cbn [negb bind].
    now rewrite Hprefix.
  - intros lock_data Hfile Hprefix. rewrite Hfile. cbn [negb bind].
    rewrite Hprefix. cbn [negb bind fst snd]. unfold get. cbn [_locks].
    split; [reflexivity|]. split; [apply lookup_insert_eq|].
    intros other Hother. now rewrite lookup_insert_ne.
Qed.

(** X23: [verify_all] answers, for every registered name, whether the key
    of that model's lock file loads; the dictionary of answers is the same
    for any two license strings; each registered lock is afterwards what
    [verify_license] makes of it; after [close_all] no name is
    registered. *)
Theorem registry_verify_all (self : QuantumLockManager) (fs : filesystem)
    (key1 key2 name : string) :
  fst (verify_all self fs key1) = fst (verify_all self fs key2)
  /\ (forall lock,
        get self name = Some lock ->
        fst (verify_all self fs key1) !! name
        = Some (lock_key_loads fs (lock_path lock))
        /\ get (snd (verify_all self fs key1)) name
           = Some (snd (verify_license lock fs key1)))
  /\ (get self name = None ->
      fst (verify_all self fs key1) !! name = None)
  /\ get (close_all self) name = None.
Proof.
  unfold verify_all, get, close_all. cbn [fst snd _locks].
  split; [|split; [|split]].
  - apply map_eq. intros n. rewrite !lookup_fmap.
    destruct (_locks self !! n) as [l|]; [|reflexivity].
    cbn. now rewrite !LockProps.verify_license_result.
  - intros lock Hlock. rewrite !lookup_fmap, Hlock. cbn.
    now rewrite LockProps.verify_license_result.
  - intros Hnone. now rewrite lookup_fmap, Hnone.
  - apply lookup_empty.
Qed.

End Generic.

Lemma lock_status_invariant_witness :
  expires (get_status (L := Toy.toy)
             (run_lock_ops (L := Toy.toy) sample_lock
                [OpVerify fs_lock "TEST-LICENSE-KEY"; OpClose;
                 OpVerify fs_garbled "REGIS-7B-C-TRIAL-2025"]))
  = None.
Proof.
  exact (proj1 (lock_status_invariant (L := Toy.toy) fs_lock "lock.bin"
                  "test_model" sample_lock
                  [OpVerify fs_lock "TEST-LICENSE-KEY"; OpClose;
                   OpVerify fs_garbled "REGIS-7B-C-TRIAL-2025"]
                  Toy.sample_entropy Toy.sample_data eq_refl)).
Defined.

Lemma reverification_failure_modes_witness :
  verify_license (L := Toy.toy) verified_lock fs_garbled "TEST-LICENSE-KEY"
  = (false, verified_lock)
  /\ fst (verify_license (L := Toy.toy) verified_lock ∅ "TEST-LICENSE-KEY")
     = false.
Proof.
  split.
  - apply (proj1 (reverification_failure_modes (L := Toy.toy) verified_lock
                    fs_garbled "TEST-LICENSE-KEY") "garbage"); reflexivity.
  - apply (proj2 (reverification_failure_modes (L := Toy.toy) verified_lock
                    ∅ "TEST-LICENSE-KEY")).
    left. reflexivity.
Defined.

Lemma lock_decrypt_alert_witness :
  decrypt (L := Toy.toy) verified_lock
    (fernet_encrypt (L := Toy.toy) ("o"%char, "k"%char) Toy.sample_entropy
       Toy.sample_data)
  = (Raise InvalidToken,
     ["[QUANTUM LOCK] Tampering attempt detected for test_model"]).
Proof.
  exact (proj1 (proj2 (lock_decrypt_alert (L := Toy.toy)
                         (Laws := ManagerProps.toy_laws)
                         verified_lock ("n"%char, "k"%char)
                         Toy.sample_entropy Toy.sample_data eq_refl eq_refl
                         ManagerProps.sample_entropy_ok))
           (fernet_encrypt (L := Toy.toy) ("o"%char, "k"%char)
              Toy.sample_entropy Toy.sample_data)
           eq_refl).
Defined.

Lemma generated_lock_opens_model_witness :
  exists fs' lock0,
    generate_lock ∅ "lock.bin" Toy.new_key = Ok (Toy.new_key, fs')
    /\ QuantumLock_init (L := Toy.toy) fs' "lock.bin" "test_model" = Ok lock0
    /\ fst (verify_license (L := Toy.toy) lock0 fs' "TEST-LICENSE-KEY") = true.
Proof.
  assert (Hout : (∅ : filesystem) !! "lock.bin" <> Some Dir)
    by (intros Hd; vm_compute in Hd; discriminate).
  destruct (generated_lock_opens_model (L := Toy.toy)
              (Laws := ManagerProps.toy_laws) ∅ "lock.bin" "test_model"
              Toy.new_key ("n"%char, "k"%char) "TEST-LICENSE-KEY"
              Toy.sample_entropy Toy.sample_data eq_refl Hout
              ManagerProps.sample_entropy_ok)
    as (fs' & lock0 & Hgen & Hinit & Hver & _).
  exists fs', lock0. repeat split; assumption.
Defined.

Lemma registry_register_witness :
  register (L := Toy.toy) sample_registry fs_garbled "other_model" "lock.bin"
  = (Raise (ValueError "Invalid lock file format"), sample_registry).
Proof.
  apply (proj1 (proj2 (registry_register (L := Toy.toy) sample_registry
                         fs_garbled "other_model" "lock.bin")) "garbage");
    reflexivity.
Defined.

Lemma registry_verify_all_witness :
  fst (verify_all (L := Toy.toy) sample_registry fs_lock "ANY") !! "test_model"
  = Some true.
Proof.
  exact (proj1 (proj1 (proj2 (registry_verify_all (L := Toy.toy) sample_registry
                                fs_lock "ANY" "" "test_model"))
                  sample_lock eq_refl)).
Defined.

End LockExtra.

(** ** [SelfDestructSystem]: baselines and escalation *)

Module MonitorExtra.
Import SelfDestruct Monitor SelfDestructProps.

Lemma dict_get_set_eq p h d : dict_get p (dict_set p h d) = Some h.
Proof.
  induction d as [|[k v] d IH]; cbn [dict_set dict_get].
  - now rewrite String.eqb_refl.
  - destruct (String.eqb p k) eqn:E; cbn [dict_get].
    + now rewrite String.eqb_refl.
    + now rewrite E.
Qed.

Lemma dict_get_set_ne q p h d :
  q <> p -> dict_get q (dict_set p h d) = dict_get q d.
Proof.
  intros Hne. apply String.eqb_neq in Hne.
  induction d as [|[k v] d IH]; cbn [dict_set dict_get].
  - now rewrite Hne.
  - destruct (String.eqb_spec p k) as [->|Hpk]; cbn [dict_get].
    + now rewrite Hne.
    + now rewrite IH.
Qed.

Lemma dict_get_In p h d : dict_get p d = Some h -> In (p, h) d.
Proof.
  induction d as [|[k v] d IH]; cbn [dict_get]; [discriminate|].
  destruct (String.eqb_spec p k) as [->|Hpk].
  - intros [= ->]. now left.
  - intros Hget. right. now apply IH.
Qed.

Lemma existsb_eqb_In q paths :
  existsb (String.eqb q) paths = true <-> In q paths.
Proof.
  rewrite existsb_exists. split.
  - intros (x & Hin & Heq). apply String.eqb_eq in Heq. now subst.
  - intros Hin. exists q. split; [exact Hin | apply String.eqb_refl].
Qed.

Section Generic.
Context {H : HashLib}.

Lemma intact_current fs p h :
  path_exists fs p = true -> _calculate_hash fs p = Ok h ->
  intact fs (p, h) = true.
Proof.
  intros Hex Hh. unfold intact. cbn [fst snd].
  now rewrite Hex, Hh, String.eqb_refl.
Qed.

Lemma intact_dict_set fs p h d :
  forallb (intact fs) d = true -> intact fs (p, h) = true ->
  forallb (intact fs) (dict_set p h d) = true.
Proof.
  intros Hd Hp. induction d as [|[k v] d IH]; cbn [dict_set forallb].
  - now rewrite Hp.
  - cbn [forallb] in Hd. apply andb_true_iff in Hd as [Hk Hd].
    destruct (String.eqb p k); cbn [forallb].
    + now rewrite Hp, Hd.
    + now rewrite Hk, IH.
Qed.

Lemma arm_loop_intact fs paths d d' :
  forallb (intact fs) d = true ->
  arm_loop fs paths d = (Ok tt, d') ->
  forallb (intact fs) d' = true.
Proof.
  revert d. induction paths as [|p paths IH]; intros d Hd; cbn [arm_loop].
  - now intros [= <-].
  - destruct (path_exists fs p) eqn:Hex; [|now apply IH].
    destruct (_calculate_hash fs p) as [h|e] eqn:Hh; [|discriminate].
    apply IH. apply intact_dict_set; [exact Hd | now apply intact_current].
Qed.

Lemma arm_loop_get fs paths d d' :
  arm_loop fs paths d = (Ok tt, d') ->
  forall q,
    dict_get q d'
    = if existsb (String.eqb q) paths && path_exists fs q
      then match _calculate_hash fs q with
           | Ok h => Some h
           | Raise _ => None
           end
      else dict_get q d.
Proof.
  revert d. induction paths as [|p paths IH]; intros d; cbn [arm_loop existsb].
  - now intros [= <-].
  - destruct (path_exists fs p) eqn:Hex.
    + destruct (_calculate_hash fs p) as [h|e] eqn:Hh; [|discriminate].
      intros Harm q. rewrite (IH _ Harm q).
      destruct (String.eqb_spec q p) as [->|Hqp]; cbn [orb].
      * rewrite Hex, Hh, andb_true_r.
        destruct (existsb (String.eqb p) paths); [reflexivity|].
        apply dict_get_set_eq.
      * destruct (existsb (String.eqb q) paths && path_exists fs q);
          [reflexivity|]. now apply dict_get_set_ne.
    + intros Harm q. rewrite (IH _ Harm q).
      destruct (String.eqb_spec q p) as [->|Hqp]; cbn [orb]; [|reflexivity].
      now rewrite Hex, !andb_false_r.
Qed.

Lemma arm_loop_hashed fs paths d d' :
  arm_loop fs paths d = (Ok tt, d') ->
  forall q, In q paths -> path_exists fs q = true ->
  exists h, _calculate_hash fs q = Ok h.
Proof.
  revert d. induction paths as [|p paths IH]; intros d Harm q Hin;
    [destruct Hin|].
  cbn [arm_loop] in Harm. intros Hex.
  destruct Hin as [->|Hin].
  - rewrite Hex in Harm.
    destruct (_calculate_hash fs q) as [h|e]; [eauto | discriminate].
  - destruct (path_exists fs p).
    + destruct (_calculate_hash fs p) as [h|e]; [|discriminate].
      eapply IH; eassumption.
    + eapply IH; eassumption.
Qed.

Lemma arm_loop_raise fs paths d d' e :
  arm_loop fs paths d = (Raise e, d') ->
  exists p, In p paths /\ fs !! p = Some Dir.
Proof.
  revert d. induction paths as [|p paths IH]; intros d; cbn [arm_loop];
    [discriminate|].
  destruct (path_exists fs p) eqn:Hex.
  - destruct (_calculate_hash fs p) as [h|e'] eqn:Hh.
    + intros Harm. destruct (IH _ Harm) as (q & Hin & Hq).
      exists q. split; [now right | exact Hq].
    + intros _. exists p. split; [now left|].
      unfold _calculate_hash, read_bytes, path_exists in *.
      destruct (fs !! p) as [[|data]|]; [reflexivity | discriminate | discriminate].
  - intros Harm. destruct (IH _ Harm) as (q & Hin & Hq).
    exists q. split; [now right | exact Hq].
Qed.

Lemma arm_loop_total fs paths d :
  (forall p, In p paths -> fs !! p <> Some Dir) ->
  exists d', arm_loop fs paths d = (Ok tt, d').
Proof.
  intros Hfiles.
  destruct (arm_loop fs paths d) as [[[]|e] d'] eqn:Harm; [eauto|].
  destruct (arm_loop_raise _ _ _ _ _ Harm) as (p & Hin & Hp).
  now destruct (Hfiles p Hin).
Qed.

(** X24: the baseline of a new monitor.  When [arm] returns, the system is
    armed, the baseline has an entry exactly for each protected path that
    exists, holding its present digest, and [check_integrity] against the
    same files answers [true] and records nothing.  [arm] raises only when
    a protected path is a directory, and then the system is not armed; it
    returns whenever no protected path is one. *)
Theorem arm_baseline (paths : list string) (fs : filesystem) (ts : Z) :
  (fst (arm (SelfDestructSystem_init paths) fs) = Ok tt ->
   _armed (snd (arm (SelfDestructSystem_init paths) fs)) = true
   /\ check_integrity (snd (arm (SelfDestructSystem_init paths) fs)) fs ts
      = (Ok true, snd (arm (SelfDestructSystem_init paths) fs))
   /\ forall q h,
        dict_get q (_integrity_hashes (snd (arm (SelfDestructSystem_init paths) fs)))
        = Some h
        <-> In q paths /\ path_exists fs q = true
            /\ _calculate_hash fs q = Ok h)
  /\ (forall e,
        fst (arm (SelfDestructSystem_init paths) fs) = Raise e ->
        _armed (snd (arm (SelfDestructSystem_init paths) fs)) = false
        /\ exists p, In p paths /\ fs !! p = Some Dir)
  /\ ((forall p, In p paths -> fs !! p <> Some Dir) ->
      fst (arm (SelfDestructSystem_init paths) fs) = Ok tt).
Proof.
  unfold arm. cbn [protected_paths _integrity_hashes SelfDestructSystem_init].
  split; [|split].
  - destruct (arm_loop fs paths []) as [[[]|e] d'] eqn:Harm; [|discriminate].
    intros _. cbn [snd]. split; [reflexivity|]. split.
    + unfold check_integrity. cbn [_armed set_armed negb].
      apply check_loop_intact. cbn [_integrity_hashes set_armed set_hashes].
      now apply (arm_loop_intact fs paths [] d').
    + intros q h. cbn [_integrity_hashes set_armed set_hashes].
      rewrite (arm_loop_get _ _ _ _ Harm q). cbn [dict_get].
      destruct (existsb (String.eqb q) paths) eqn:Hq; cbn [andb].
      * apply existsb_eqb_In in Hq.
        destruct (path_exists fs q) eqn:Hex.
        -- destruct (_calculate_hash fs q) as [h'|e']; split.
           ++ intros [= ->]. auto.
           ++ now intros (_ & _ & [= ->]).
           ++ discriminate.
           ++ now intros (_ & _ & ?).
        -- split; [discriminate | now intros (_ & ? & _)].
      * split; [discriminate|].
        intros (Hin & _). apply existsb_eqb_In in Hin. congruence.
  - intros e. destruct (arm_loop fs paths []) as [[[]|e'] d'] eqn:Harm;
      [discriminate|].
    intros _. cbn [snd]. split; [reflexivity|].
    eapply arm_loop_raise, Harm.
  - intros Hfiles. destruct (arm_loop_total fs paths [] Hfiles) as (d' & ->).
    reflexivity.
Qed.

(** X25: arming again.  When [arm] returns on a system that already has a
    baseline, every protected path that exists now carries its present
    digest, whatever digest it had, so a modification made since the first
    baseline is no longer reported; every other entry is kept as it was, so
    a baselined file that has been removed still makes [check_integrity]
    fail.  The event log is untouched. *)
Theorem rearm_rebaselines (self : SelfDestructSystem) (fs : filesystem)
    (ts : Z) :
  fst (arm self fs) = Ok tt ->
  _armed (snd (arm self fs)) = true
  /\ _tamper_events (snd (arm self fs)) = _tamper_events self
  /\ (forall q,
        In q (protected_paths self) -> path_exists fs q = true ->
        exists h, _calculate_hash fs q = Ok h
                  /\ dict_get q (_integrity_hashes (snd (arm self fs))) = Some h)
  /\ (forall q,
        ~ (In q (protected_paths self) /\ path_exists fs q = true) ->
        dict_get q (_integrity_hashes (snd (arm self fs)))
        = dict_get q (_integrity_hashes self))
  /\ (forall q h,
        dict_get q (_integrity_hashes self) = Some h ->
        path_exists fs q = false ->
        fst (check_integrity (snd (arm self fs)) fs ts) <> Ok true).
Proof.
  unfold arm.
  destruct (arm_loop fs (protected_paths self) (_integrity_hashes self))
    as [[[]|e] d'] eqn:Harm; [|discriminate].
  intros _. cbn [snd _armed _tamper_events _integrity_hashes set_armed set_hashes].
  assert (Hkeep : forall q,
             ~ (In q (protected_paths self) /\ path_exists fs q = true) ->
             dict_get q d' = dict_get q (_integrity_hashes self)).
  { intros q Hnot. rewrite (arm_loop_get _ _ _ _ Harm q).
    destruct (existsb (String.eqb q) (protected_paths self)) eqn:Hq;
      [|reflexivity].
    destruct (path_exists fs q) eqn:Hex; [|reflexivity].
    exfalso. apply Hnot. split; [now apply existsb_eqb_In | reflexivity]. }
  split; [reflexivity|]. split; [reflexivity|]. split; [|split].
  - intros q Hin Hex.
    destruct (arm_loop_hashed _ _ _ _ Harm q Hin Hex) as (h & Hh).
    exists h. split; [exact Hh|].
    rewrite (arm_loop_get _ _ _ _ Harm q).
    apply existsb_eqb_In in Hin. now rewrite Hin, Hex, Hh.
  - exact Hkeep.
  - intros q h Hget Hmissing Htrue.
    unfold check_integrity in Htrue. cbn [_armed set_armed negb] in Htrue.
    apply check_loop_true in Htrue.
    cbn [_integrity_hashes set_armed set_hashes] in Htrue.
    rewrite <- Hkeep in Hget by (intros (_ & Hex); congruence).
    apply dict_get_In in Hget.
    rewrite forallb_forall in Htrue. specialize (Htrue _ Hget).
    unfold intact in Htrue. cbn [fst] in Htrue. now rewrite Hmissing in Htrue.
Qed.

Lemma record_tamper_cases (self : SelfDestructSystem) ts ty det sev path :
  let ev := {| timestamp := ts; event_type := ty; details := det;
               severity := sev; file_path := path |} in
  let exits := String.eqb sev SEVERITY_FATAL && negb (_triggered self) in
  fst (_record_tamper self ts ty det sev path)
  = (if exits then Raise (SystemExit 1) else Ok tt)
  /\ _tamper_events (snd (_record_tamper self ts ty det sev path))
     = (_tamper_events self ++ [ev])%list
  /\ _triggered (snd (_record_tamper self ts ty det sev path))
     = _triggered self || String.eqb sev SEVERITY_FATAL
  /\ _integrity_hashes (snd (_record_tamper self ts ty det sev path))
     = (if exits then [] else _integrity_hashes self)
  /\ _armed (snd (_record_tamper self ts ty det sev path)) = _armed self.
Proof.
  cbv zeta. unfold _record_tamper, trigger. cbn [_triggered].
  destruct (String.eqb sev SEVERITY_FATAL); destruct (_triggered self);
    cbn; repeat split.
Qed.

Lemma count_raised_cons (r : result unit) rs :
  count_raised (r :: rs)
  = ((if is_ok r then 0 else 1) + count_raised rs)%nat.
Proof. unfold count_raised. cbn [List.filter]. now destruct (is_ok r). Qed.

(** X26: escalation happens once.  Over any sequence of recorded events,
    processed by a host that survives [SystemExit], exactly one call raises
    when the system was not triggered and the sequence holds a fatal event,
    and none otherwise; what is raised is [SystemExit(1)]; every event of
    the sequence is appended to the log in order; a triggered system stays
    triggered. *)
Theorem escalation_happens_once (self : SelfDestructSystem)
    (rps : list report) :
  count_raised (fst (record_all self rps))
  = (if negb (_triggered self) && existsb is_fatal rps then 1%nat else 0%nat)
  /\ Forall (fun r => r = Ok tt \/ r = Raise (SystemExit 1))
       (fst (record_all self rps))
  /\ _tamper_events (snd (record_all self rps))
     = (_tamper_events self ++ map report_event rps)%list
  /\ _triggered (snd (record_all self rps))
     = _triggered self || existsb is_fatal rps.
Proof.
  revert self. induction rps as [|rp rps IH]; intros self.
  - cbn. rewrite andb_false_r, orb_false_r, app_nil_r. repeat split.
    constructor.
  - cbn [record_all existsb map].
    pose proof (record_tamper_cases self (r_ts rp) (r_type rp) (r_details rp)
                  (r_severity rp) (r_path rp)) as Hstep.
    cbv zeta in Hstep.
    destruct (_record_tamper self (r_ts rp) (r_type rp) (r_details rp)
                (r_severity rp) (r_path rp)) as [r self1].
    cbn [fst snd] in Hstep. destruct Hstep as (Hr & Hev & Htr & _ & _).
    specialize (IH self1).
    destruct (record_all self1 rps) as [rs self2].
    cbn [fst snd] in *. destruct IH as (IHc & IHf & IHe & IHt).
    fold (is_fatal rp) in Hr, Htr.
    split; [|split; [|split]].
    + rewrite count_raised_cons, IHc, Hr, Htr.
      destruct (is_fatal rp); destruct (_triggered self);
        destruct (existsb is_fatal rps); reflexivity.
    + constructor; [|exact IHf]. rewrite Hr.
      destruct (is_fatal rp && negb (_triggered self)); [now right | now left].
    + rewrite IHe, Hev, <- app_assoc. reflexivity.
    + rewrite IHt, Htr. now rewrite orb_assoc.
Qed.

(** X27: the first [trigger] raises [SystemExit(1)] and wipes the baseline:
    from then on [check_integrity] answers [true] for every file system and
    records nothing, armed or not, and a further [trigger] returns without
    raising and changes nothing. *)
Theorem triggered_monitor_is_blind (self : SelfDestructSystem) :
  _triggered self = false ->
  fst (trigger self) = Raise (SystemExit 1)
  /\ _integrity_hashes (snd (trigger self)) = []
  /\ _triggered (snd (trigger self)) = true
  /\ trigger (snd (trigger self)) = (Ok tt, snd (trigger self))
  /\ forall fs ts,
       check_integrity (snd (trigger self)) fs ts
       = (Ok true, snd (trigger self)).
Proof.
  intros Hfresh.
  assert (Htrig : trigger self
                  = (Raise (SystemExit 1),
                     {| protected_paths := protected_paths self;
                        _integrity_hashes := [];
                        _tamper_events := _tamper_events self;
                        _callbacks := _callbacks self;
                        _armed := _armed self; _triggered := true |})).
  { unfold trigger. now rewrite Hfresh. }
  rewrite Htrig. cbn [fst snd].
  split; [reflexivity|]. split; [reflexivity|]. split; [reflexivity|].
  split; [reflexivity|].
  intros fs ts. unfold check_integrity. cbn [_armed _integrity_hashes].
  now destruct (_armed self).
Qed.

End Generic.

Lemma arm_baseline_witness :
  check_integrity (H := toy_hash) armed_system fs_baseline 1700000000
  = (Ok true, armed_system).
Proof.
  exact (proj1 (proj2 (proj1 (arm_baseline (H := toy_hash) ["model.bin"]
                                fs_baseline 1700000000) eq_refl))).
Defined.

Lemma rearm_rebaselines_witness :
  dict_get "model.bin"
    (_integrity_hashes (snd (arm (H := toy_hash) armed_system fs_modified)))
  = Some "weights!"
  /\ fst (check_integrity (H := toy_hash)
            (snd (arm (H := toy_hash) armed_system fs_deleted)) fs_deleted
            1700000000)
     <> Ok true.
Proof.
  split.
  - destruct (proj1 (proj2 (proj2 (rearm_rebaselines (H := toy_hash)
                                     armed_system fs_modified 1700000000
                                     eq_refl)))
                "model.bin" (or_introl eq_refl) eq_refl)
      as (h & Hh & Hget).
    rewrite Hget. vm_compute in Hh. congruence.
  - exact (proj2 (proj2 (proj2 (proj2 (rearm_rebaselines (H := toy_hash)
                                          armed_system fs_deleted 1700000000
                                          eq_refl))))
             "model.bin" "weights" eq_refl eq_refl).
Defined.

Lemma triggered_monitor_is_blind_witness :
  check_integrity (H := toy_hash) (snd (trigger armed_system)) fs_modified
    1700000000
  = (Ok true, snd (trigger armed_system)).
Proof.
  exact (proj2 (proj2 (proj2 (proj2 (triggered_monitor_is_blind armed_system
                                       eq_refl))))
           fs_modified 1700000000).
Defined.

Example escalation_sample :
  fst (record_all armed_system
         [warning_report; debugger_report; debugger_report])
  = [Ok tt; Raise (SystemExit 1); Ok tt].
Proof. vm_compute. reflexivity. Qed.

End MonitorExtra.
